(** * pat2raw: the Gravis Ultrasound patch reader ([patreader.read])

    A shallow embedding of [patreader/__init__.py].  The file on disk is a
    list of bytes, the buffered reader [f] is that list together with a
    cursor, and the body of [read] is written in a small state-and-exception
    monad that threads the cursor, the [Result] object under construction and
    the lines printed on standard output. *)

From Stdlib Require Import ZArith String Lia.
From Stdlib Require Import Strings.Byte DecimalString DecimalPos DecimalZ.
From stdpp Require Import base list strings gmap.

Local Open Scope Z_scope.

(** ** Bytes *)

Abbreviation byte := Init.Byte.byte.

#[global] Instance byte_eq_decision : EqDecision byte := Byte.byte_eq_dec.

(** The integer value of a byte, 0..255. *)
Definition byte_val (b : byte) : Z := Z.of_N (Byte.to_N b).

(** The byte whose value is [z mod 256]. *)
Definition byte_of_Z (z : Z) : byte :=
  match Byte.of_N (Z.to_N (z mod 256)) with
  | Some b => b
  | None => Byte.x00
  end.

(** A bytes literal such as [b'GF1PATCH110']. *)
Definition bytes_lit (s : string) : list byte := list_byte_of_string s.

(** [int.from_bytes(bs, 'little')]: the empty byte string is 0. *)
Fixpoint int_from_bytes_little (bs : list byte) : Z :=
  match bs with
  | [] => 0
  | b :: bs' => byte_val b + 256 * int_from_bytes_little bs'
  end.

(** Python truthiness of an integer ([if modes & Mode.SIXTEEN_BIT:]). *)
Definition truthy (z : Z) : bool := negb (z =? 0).

(** [str(n)] of an integer, as the f-strings of the error messages use it. *)
Definition str_of_int (z : Z) : string := NilZero.string_of_int (Z.to_int z).

(** ** The data model *)

(** [class Error(IntEnum)]; [auto()] numbers the members from 1. *)
Inductive Error := OK | BAD_HEADER | TOO_MANY_INSTRUMENTS | TOO_MANY_LAYERS.

Definition Error_value (e : Error) : Z :=
  match e with
  | OK => 1
  | BAD_HEADER => 2
  | TOO_MANY_INSTRUMENTS => 3
  | TOO_MANY_LAYERS => 4
  end.

#[global] Instance Error_eq_decision : EqDecision Error.
Proof. solve_decision. Defined.

(** [class Mode(IntFlag)]: a bit set kept as the integer it wraps. *)
Module Mode.
Definition SIXTEEN_BIT : Z := 1.
Definition UNSIGNED : Z := Z.shiftl 1 1.
Definition LOOPING : Z := Z.shiftl 1 2.
Definition PINGPONG : Z := Z.shiftl 1 3.
Definition REVERSE : Z := Z.shiftl 1 4.
Definition SUSTAIN : Z := Z.shiftl 1 5.
Definition ENVELOPE : Z := Z.shiftl 1 6.
Definition CLAMPED : Z := Z.shiftl 1 7.
End Mode.

Record Audio := mkAudio {
  pcm_data : list byte;
  sample_width_in_bytes : Z
}.

Record Result := mkResult {
  error : Error;
  error_msg : string;
  samples : list Audio
}.

(** [Result()]: the dataclass defaults. *)
Definition Result_default : Result :=
  {| error := OK; error_msg := ""; samples := [] |}.

Definition FRACTION_BITS : Z := 12.

(** The dictionary that [read] prints after each sample. *)
Record SampleInfo := mkSampleInfo {
  fractions : Z;
  data_length : Z;
  loop_start : Z;
  loop_end : Z;
  sample_rate : Z;
  low_freq : Z;
  high_freq : Z;
  root_freq : Z;
  stereo_balance : Z;
  tremolo_sweep : Z;
  tremolo_rate : Z;
  tremolo_depth : Z;
  vibrato_sweep : Z;
  vibrato_rate : Z;
  vibrato_depth : Z;
  modes : Z;
  scale_freq : Z;
  scale_factor : Z
}.

(** ** Exceptions and the monad of [read] *)

(** The only exception the body of [read] can raise once the file is open. *)
Inductive Exn := struct_error (msg : string).

Inductive Outcome (A : Type) :=
| Returned (a : A)
| Raised (e : Exn).
Arguments Returned {A} a.
Arguments Raised {A} e.

#[global] Instance Outcome_ret : MRet Outcome := fun A a => Returned a.
#[global] Instance Outcome_bind : MBind Outcome := fun A B k o =>
  match o with
  | Returned a => k a
  | Raised e => Raised e
  end.

(** What a call of [read] can change: the cursor of [f], the [result]
    object, and standard output.  [content] is the file and never changes. *)
Record State := mkState {
  content : list byte;
  pos : nat;
  result : Result;
  stdout : list SampleInfo
}.

Definition M (A : Type) : Type := State -> Outcome A * State.

#[global] Instance M_ret : MRet M := fun A a s => (Returned a, s).
#[global] Instance M_bind : MBind M := fun A B k c s =>
  match c s with
  | (Returned a, s') => k a s'
  | (Raised e, s') => (Raised e, s')
  end.

(** An exception of a pure step escapes through the monad. *)
Definition lift {A} (o : Outcome A) : M A := fun s => (o, s).

(** ** The buffered reader *)

(** The bytes of the file from the cursor on; none when the cursor is at or
    beyond the end. *)
Definition remaining (s : State) : list byte := drop (pos s) (content s).

(** The bytes that [f.read(n)] returns in state [s]: at most [n] bytes from
    the cursor on, fewer (or none) at the end of the file; a negative [n]
    reads up to the end. *)
Definition available (n : Z) (s : State) : list byte :=
  if n <? 0 then remaining s else take (Z.to_nat n) (remaining s).

(** [f.read(n)]: the cursor moves past what is returned. *)
Definition f_read (n : Z) : M (list byte) := fun s =>
  let data := available n s in
  (Returned data,
   {| content := content s; pos := (pos s + length data)%nat;
      result := result s; stdout := stdout s |}).

(** [f.seek(offset, io.SEEK_SET)]; the cursor may lie beyond the end. *)
Definition f_seek_set (offset : nat) : M unit := fun s =>
  (Returned tt,
   {| content := content s; pos := offset;
      result := result s; stdout := stdout s |}).

(** [f.seek(offset, io.SEEK_CUR)]. *)
Definition f_seek_cur (offset : nat) : M unit := fun s =>
  (Returned tt,
   {| content := content s; pos := (pos s + offset)%nat;
      result := result s; stdout := stdout s |}).

(** [int.from_bytes(f.read(n), 'little')]. *)
Definition read_int (n : Z) : M Z :=
  data ← f_read n; mret (int_from_bytes_little data).

(** [result.error = e; result.error_msg = msg]. *)
Definition set_error (e : Error) (msg : string) : M unit := fun s =>
  (Returned tt,
   {| content := content s; pos := pos s;
      result := {| error := e; error_msg := msg;
                   samples := samples (result s) |};
      stdout := stdout s |}).

(** [result.samples.append(a)]. *)
Definition append_sample (a : Audio) : M unit := fun s =>
  (Returned tt,
   {| content := content s; pos := pos s;
      result := {| error := error (result s);
                   error_msg := error_msg (result s);
                   samples := samples (result s) ++ [a] |};
      stdout := stdout s |}).

(** [print({...})]. *)
Definition print (info : SampleInfo) : M unit := fun s =>
  (Returned tt,
   {| content := content s; pos := pos s;
      result := result s; stdout := stdout s ++ [info] |}).

(** [return result]. *)
Definition get_result : M Result := fun s => (Returned (result s), s).

(** [for _ in range(n): body]. *)
Fixpoint for_range (n : nat) (body : M unit) : M unit :=
  match n with
  | O => mret tt
  | S n' => body;; for_range n' body
  end.

(** ** The [struct] module, as far as [read] uses it *)

(** Format ['<H']: two bytes, little-endian, unsigned. *)
Definition unpack_H (b0 b1 : byte) : Z := byte_val b0 + 256 * byte_val b1.

(** Format ['<h']: two bytes, little-endian, two's complement. *)
Definition unpack_h (b0 b1 : byte) : Z :=
  let u := unpack_H b0 b1 in
  if 32768 <=? u then u - 65536 else u.

(** The consecutive two-byte items of a buffer of even length. *)
Fixpoint items (unpack : byte -> byte -> Z) (data : list byte) : list Z :=
  match data with
  | b0 :: b1 :: rest => unpack b0 b1 :: items unpack rest
  | _ => []
  end.

(** [struct.iter_unpack(fmt, data)] for a two-byte format: the length of the
    buffer is checked when the iterator is created, before any item is
    produced. *)
Definition iter_unpack (unpack : byte -> byte -> Z) (data : list byte)
  : Outcome (list Z) :=
  if (length data mod 2 =? 0)%nat then Returned (items unpack data)
  else Raised (struct_error
    "iterative unpacking requires a buffer of a multiple of 2 bytes").

(** [struct.pack_into('<h', buf, offset, v)]: writes two bytes in place;
    [struct.error] when they do not fit into the buffer at [offset] or when
    [v] is no signed 16-bit number. *)
Definition pack_into_h (buf : list byte) (offset : nat) (v : Z)
  : Outcome (list byte) :=
  if (length buf <? offset + 2)%nat then
    Raised (struct_error "pack_into requires a buffer of at least 2 bytes")
  else if (v <? -32768) || (32767 <? v) then
    Raised (struct_error "short format requires -32768 <= number <= 32767")
  else
    Returned (<[S offset := byte_of_Z (v / 256)]>
              (<[offset := byte_of_Z v]> buf)).

(** The loops of lines 121-124 and 128-130:
    [for word in ...: struct.pack_into('<h', buf, ii, g(word[0])); ii += 2],
    where [g] subtracts 0x8000 in the first loop and is the identity in the
    second. *)
Fixpoint pack_words (g : Z -> Z) (ws : list Z) (buf : list byte) (ii : nat)
  : Outcome (list byte) :=
  match ws with
  | [] => mret buf
  | w :: ws' =>
      buf' ← pack_into_h buf ii (g w);
      pack_words g ws' buf' (ii + 2)
  end.

(** ** The PCM transcoding step (lines 112-131)

    From the mode flags, the declared [data_length] and the bytes that
    [f.read(data_length)] returned, the pair of [data] and
    [sample_width_in_bytes] that goes into the [Audio]. *)
Definition transcode (modes data_length : Z) (data : list byte)
  : Outcome (list byte * Z) :=
  if truthy (Z.land modes Mode.SIXTEEN_BIT) then
    let buf := replicate (Z.to_nat data_length) Byte.x00 in
    if truthy (Z.land modes Mode.UNSIGNED) then
      buf' ← (if truthy (Z.land modes Mode.UNSIGNED) then
                ws ← iter_unpack unpack_H data;
                pack_words (fun w => w - 0x8000) ws buf 0
              else mret buf);
      mret (buf', 2)
    else
      ws ← iter_unpack unpack_h data;
      buf' ← pack_words (fun w => w) ws buf 0;
      mret (buf', 2)
  else mret (data, 1).

(** ** The sample block (the body of the [for] loop) *)

(** Lines 76-109: the fixed-layout record in front of the payload. *)
Definition read_sample_record : M SampleInfo :=
  f_seek_cur 7;;
  fractions ← read_int 1;
  data_length ← read_int 4;
  loop_start ← read_int 4;
  loop_end ← read_int 4;
  sample_rate ← read_int 2;
  low_freq ← read_int 4;
  high_freq ← read_int 4;
  root_freq ← read_int 4;
  f_seek_cur 2;;
  stereo_balance ← read_int 1;
  f_seek_cur 12;;
  tremolo_sweep ← read_int 1;
  tremolo_rate ← read_int 1;
  tremolo_depth ← read_int 1;
  vibrato_sweep ← read_int 1;
  vibrato_rate ← read_int 1;
  vibrato_depth ← read_int 1;
  modes ← read_int 1;
  scale_freq ← read_int 2;
  scale_factor ← read_int 2;
  f_seek_cur 36;;
  mret {| fractions := fractions; data_length := data_length;
          loop_start := loop_start; loop_end := loop_end;
          sample_rate := sample_rate; low_freq := low_freq;
          high_freq := high_freq; root_freq := root_freq;
          stereo_balance := stereo_balance;
          tremolo_sweep := tremolo_sweep; tremolo_rate := tremolo_rate;
          tremolo_depth := tremolo_depth; vibrato_sweep := vibrato_sweep;
          vibrato_rate := vibrato_rate; vibrato_depth := vibrato_depth;
          modes := modes; scale_freq := scale_freq;
          scale_factor := scale_factor |}.

(** Lines 111-154: the payload, its transcoding, the new [Audio] and the
    printed dictionary. *)
Definition read_sample_data (info : SampleInfo) : M unit :=
  data ← f_read (data_length info);
  '(data, sample_width_in_bytes) ←
     lift (transcode (modes info) (data_length info) data);
  append_sample (mkAudio data sample_width_in_bytes);;
  print info.

Definition read_sample : M unit :=
  info ← read_sample_record; read_sample_data info.

(** ** [read] *)

(** [num += num == 0]: to some patch makers, 0 means 1. *)
Definition zero_means_one (num : Z) : Z := num + Z.b2z (num =? 0).

(** Lines 52-54 and 61-63, the same three statements for the instruments
    (offset 82) and the layers (offset 151):
    [f.seek(offset, io.SEEK_SET); num = int.from_bytes(f.read(1), 'little');
     num += num == 0]. *)
Definition read_count (offset : nat) : M Z :=
  f_seek_set offset;;
  num ← read_int 1;
  mret (zero_means_one num).

(** Lines 69-75 and 183: the sample count, the reserved bytes, the loop. *)
Definition read_samples : M Result :=
  f_seek_set 198;;
  num_samples ← read_int 1;
  f_seek_cur 40;;
  for_range (Z.to_nat num_samples) read_sample;;
  get_result.

(** The body of the [with] block, for the file object [f] just opened. *)
Definition read_body : M Result :=
  id ← f_read 11;
  if bool_decide (id ≠ bytes_lit "GF1PATCH110")
     && bool_decide (id ≠ bytes_lit "GF1PATCH100") then
    set_error BAD_HEADER "Invalid Gravis patch file.";;
    get_result
  else
    num_instruments ← read_count 82;
    if num_instruments <=? 0 then
      set_error TOO_MANY_INSTRUMENTS
        ("Cannot handle patches with " ++ str_of_int num_instruments
         ++ " instruments.");;
      get_result
    else
      num_layers ← read_count 151;
      if num_layers <=? 0 then
        set_error TOO_MANY_LAYERS
          ("Cannot handle patches with " ++ str_of_int num_layers
           ++ " layers.");;
        get_result
      else read_samples.

(** [io.open(path, 'rb')] on an existing file with the bytes [file]. *)
Definition open (file : list byte) : State :=
  {| content := file; pos := 0; result := Result_default; stdout := [] |}.

(** [read(path)], where [file] is what the file at [path] holds: the result
    returned or the exception that escapes, and what was printed. *)
Definition read_run (file : list byte) : Outcome Result * State :=
  read_body (open file).

Definition read (file : list byte) : Outcome Result := fst (read_run file).

Definition printed (file : list byte) : list SampleInfo :=
  stdout (snd (read_run file)).

(** ** Vocabulary of the statements *)

(** The first bytes of the file are one of the two magic strings. *)
Definition accepted_magic (file : list byte) : Prop :=
  take 11 file = bytes_lit "GF1PATCH110"
  ∨ take 11 file = bytes_lit "GF1PATCH100".

(** What [int.from_bytes(f.read(1), 'little')] yields with the cursor at
    [offset]: the byte there, or 0 when the file ends before it. *)
Definition count_byte (offset : nat) (file : list byte) : Z :=
  int_from_bytes_little (take 1 (drop offset file)).

(** The state in which the [for] loop starts, for a file that passed the
    header checks: the cursor stands 40 bytes behind the sample count. *)
Definition samples_start (file : list byte) : State :=
  {| content := file;
     pos := (198 + length (take 1 (drop 198 file)) + 40)%nat;
     result := Result_default; stdout := [] |}.

(** A flag of [Mode] is set in the bit set [modes]: [modes & flag] is
    truthy. *)
Definition has_flag (modes flag : Z) : Prop := Z.land modes flag ≠ 0.

(** The two bytes that [struct.pack_into('<h', ...)] writes for [v]. *)
Definition pack_h (v : Z) : list byte := [byte_of_Z v; byte_of_Z (v / 256)].

(** Everything of a state but the cursor is left as it was. *)
Definition same_but_pos (s s' : State) : Prop :=
  content s' = content s ∧ result s' = result s ∧ stdout s' = stdout s.

(** A computation that only reads from [f]: it returns, and moves nothing
    but the cursor. *)
Definition reads_only {A} (c : M A) : Prop :=
  ∀ s, ∃ a s', c s = (Returned a, s') ∧ same_but_pos s s'.

(** The audio unit has the width that goes with the printed mode flags. *)
Definition width_matches (info : SampleInfo) (a : Audio) : Prop :=
  sample_width_in_bytes a
  = if truthy (Z.land (modes info) Mode.SIXTEEN_BIT) then 2 else 1.

(** From [s] to [s'], [n] samples were decoded: [n] audio units were
    appended and [n] dictionaries printed; the file and the error fields
    of the result are as before. *)
Definition decoded (n : nat) (s s' : State) : Prop :=
  content s' = content s
  ∧ error (result s') = error (result s)
  ∧ error_msg (result s') = error_msg (result s)
  ∧ ∃ new infos,
      samples (result s') = samples (result s) ++ new
      ∧ stdout s' = stdout s ++ infos
      ∧ length new = n
      ∧ Forall2 width_matches infos new.

(** The state behind a sample block that consumed [n] payload bytes,
    appended [a] and printed [info]. *)
Definition after_sample (s : State) (n : nat) (a : Audio) (info : SampleInfo)
  : State :=
  {| content := content s; pos := (pos s + n)%nat;
     result := {| error := error (result s);
                  error_msg := error_msg (result s);
                  samples := samples (result s) ++ [a] |};
     stdout := stdout s ++ [info] |}.

(** *** Patch files for the examples *)

Definition zeros (n : nat) : list byte := replicate n Byte.x00.

(** [n] bytes of [z], little-endian. *)
Fixpoint le_bytes (n : nat) (z : Z) : list byte :=
  match n with
  | O => []
  | S n' => byte_of_Z z :: le_bytes n' (z / 256)
  end.

(** A 239-byte patch header with the given magic and count bytes. *)
Definition mk_header (magic : string) (ni nl ns : Z) : list byte :=
  bytes_lit magic ++ zeros 71 ++ [byte_of_Z ni] ++ zeros 68
  ++ [byte_of_Z nl] ++ zeros 46 ++ [byte_of_Z ns] ++ zeros 40.

(** A 96-byte sample record declaring [dl] payload bytes and modes [m]. *)
Definition mk_record (dl m : Z) : list byte :=
  zeros 8 ++ le_bytes 4 dl ++ zeros 43 ++ [byte_of_Z m] ++ zeros 40.

(** One 8-bit sample with the payload 10 20 30 40. *)
Definition patch_eight_bit : list byte :=
  mk_header "GF1PATCH110" 1 1 1 ++ mk_record 4 0
  ++ [Byte.x10; Byte.x20; Byte.x30; Byte.x40].

(** One 16-bit unsigned sample with the two words 0x8000 and 0x0000. *)
Definition patch_unsigned : list byte :=
  mk_header "GF1PATCH110" 1 1 1 ++ mk_record 4 3
  ++ [Byte.x00; Byte.x80; Byte.x00; Byte.x00].

(** A header that declares no sample. *)
Definition patch_no_sample : list byte := mk_header "GF1PATCH110" 1 1 0.

(** One 8-bit sample that declares 4 payload bytes; the file ends after 2. *)
Definition patch_truncated : list byte :=
  mk_header "GF1PATCH110" 1 1 1 ++ mk_record 4 0 ++ [Byte.x10; Byte.x20].

(** The same with a 16-bit signed sample. *)
Definition patch_truncated_sixteen : list byte :=
  mk_header "GF1PATCH110" 1 1 1 ++ mk_record 4 1 ++ [Byte.x10; Byte.x20].

(** One 16-bit sample with 3 payload bytes. *)
Definition patch_odd : list byte :=
  mk_header "GF1PATCH100" 0 0 1 ++ mk_record 3 1
  ++ [Byte.x10; Byte.x20; Byte.x30].

(** The cursor of [patch_truncated_sixteen] in front of the payload, and the
    record that was read on the way there. *)
Definition truncated_state : State :=
  {| content := patch_truncated_sixteen; pos := 239 + 96;
     result := Result_default; stdout := [] |}.

Definition truncated_info : SampleInfo :=
  {| fractions := 0; data_length := 4; loop_start := 0; loop_end := 0;
     sample_rate := 0; low_freq := 0; high_freq := 0; root_freq := 0;
     stereo_balance := 0; tremolo_sweep := 0; tremolo_rate := 0;
     tremolo_depth := 0; vibrato_sweep := 0; vibrato_rate := 0;
     vibrato_depth := 0; modes := 1; scale_freq := 0; scale_factor := 0 |}.

(** The cursor of [patch_odd] in front of the payload, and the record that
    was read on the way there. *)
Definition odd_state : State :=
  {| content := patch_odd; pos := 239 + 96;
     result := Result_default; stdout := [] |}.

Definition odd_info : SampleInfo :=
  {| fractions := 0; data_length := 3; loop_start := 0; loop_end := 0;
     sample_rate := 0; low_freq := 0; high_freq := 0; root_freq := 0;
     stereo_balance := 0; tremolo_sweep := 0; tremolo_rate := 0;
     tremolo_depth := 0; vibrato_sweep := 0; vibrato_rate := 0;
     vibrato_depth := 0; modes := 1; scale_freq := 0; scale_factor := 0 |}.

(** ** Vocabulary of the further statements *)

(** The state [s] with the cursor moved to [p]. *)
Definition set_pos (p : nat) (s : State) : State :=
  {| content := content s; pos := p; result := result s; stdout := stdout s |}.

(** The little-endian number in the [width] bytes that lie [offset] bytes
    behind the cursor. *)
Definition field (s : State) (offset width : nat) : Z :=
  int_from_bytes_little (take width (drop (pos s + offset) (content s))).

(** The record that lies behind the cursor, field by field at its offset. *)
Definition record_at (s : State) : SampleInfo :=
  {| fractions := field s 7 1; data_length := field s 8 4;
     loop_start := field s 12 4; loop_end := field s 16 4;
     sample_rate := field s 20 2; low_freq := field s 22 4;
     high_freq := field s 26 4; root_freq := field s 30 4;
     stereo_balance := field s 36 1;
     tremolo_sweep := field s 49 1; tremolo_rate := field s 50 1;
     tremolo_depth := field s 51 1; vibrato_sweep := field s 52 1;
     vibrato_rate := field s 53 1; vibrato_depth := field s 54 1;
     modes := field s 55 1; scale_freq := field s 56 2;
     scale_factor := field s 58 2 |}.

(** Every number of the record fits the width it was read with. *)
Definition in_range (info : SampleInfo) : Prop :=
  0 <= fractions info < 2 ^ 8
  ∧ 0 <= data_length info < 2 ^ 32
  ∧ 0 <= loop_start info < 2 ^ 32
  ∧ 0 <= loop_end info < 2 ^ 32
  ∧ 0 <= sample_rate info < 2 ^ 16
  ∧ 0 <= low_freq info < 2 ^ 32
  ∧ 0 <= high_freq info < 2 ^ 32
  ∧ 0 <= root_freq info < 2 ^ 32
  ∧ 0 <= stereo_balance info < 2 ^ 8
  ∧ 0 <= tremolo_sweep info < 2 ^ 8
  ∧ 0 <= tremolo_rate info < 2 ^ 8
  ∧ 0 <= tremolo_depth info < 2 ^ 8
  ∧ 0 <= vibrato_sweep info < 2 ^ 8
  ∧ 0 <= vibrato_rate info < 2 ^ 8
  ∧ 0 <= vibrato_depth info < 2 ^ 8
  ∧ 0 <= modes info < 2 ^ 8
  ∧ 0 <= scale_freq info < 2 ^ 16
  ∧ 0 <= scale_factor info < 2 ^ 16.

(** The record of a sample that starts at or behind the end of the file. *)
Definition empty_info : SampleInfo :=
  {| fractions := 0; data_length := 0; loop_start := 0; loop_end := 0;
     sample_rate := 0; low_freq := 0; high_freq := 0; root_freq := 0;
     stereo_balance := 0; tremolo_sweep := 0; tremolo_rate := 0;
     tremolo_depth := 0; vibrato_sweep := 0; vibrato_rate := 0;
     vibrato_depth := 0; modes := 0; scale_freq := 0; scale_factor := 0 |}.

(** The audio unit has the size that goes with the printed record: all of
    [data_length] bytes for a 16-bit sample, at most that many for an 8-bit
    sample. *)
Definition sized (info : SampleInfo) (a : Audio) : Prop :=
  (has_flag (modes info) Mode.SIXTEEN_BIT ->
   length (pcm_data a) = Z.to_nat (data_length info))
  ∧ (¬ has_flag (modes info) Mode.SIXTEEN_BIT ->
     (length (pcm_data a) <= Z.to_nat (data_length info))%nat).


(** *** Well-formed sample blocks

    A sample block as it lies in a file: the 96 bytes of its record and the
    payload behind them. *)
Definition block_bytes (b : list byte * list byte) : list byte :=
  fst b ++ snd b.

(** The mode byte of the record of a block. *)
Definition block_modes (b : list byte * list byte) : Z :=
  int_from_bytes_little (take 1 (drop 55 (fst b))).

(** The record has its 96 bytes, announces just the payload that follows,
    and a 16-bit payload has an even number of bytes. *)
Definition well_formed_block (b : list byte * list byte) : Prop :=
  length (fst b) = 96%nat
  ∧ int_from_bytes_little (take 4 (drop 8 (fst b))) = Z.of_nat (length (snd b))
  ∧ (has_flag (block_modes b) Mode.SIXTEEN_BIT -> Nat.Even (length (snd b))).

(** Every unsigned 16-bit word of the payload moved down by 32768. *)
Definition recentred (payload : list byte) : list byte :=
  flat_map pack_h (map (fun w => w - 32768) (items unpack_H payload)).

(** The audio unit a well-formed block stands for. *)
Definition block_audio (b : list byte * list byte) : Audio :=
  if truthy (Z.land (block_modes b) Mode.SIXTEEN_BIT) then
    if truthy (Z.land (block_modes b) Mode.UNSIGNED) then
      mkAudio (recentred (snd b)) 2
    else mkAudio (snd b) 2
  else mkAudio (snd b) 1.

(** ** The command line ([__main__.py]) *)

(** A line on standard output: a dictionary printed by [read], or a text. *)
Inductive Line :=
| dict_line (info : SampleInfo)
| text_line (text : string).

(** The exceptions that can end [main] with a traceback. *)
Inductive MainExn :=
| FileNotFoundError (path : string)
| IndexError
| ReadError (e : Exn).

(** How [main] ends: it returns, [sys.exit(code)] is called, or an
    exception escapes. *)
Inductive Exit :=
| exit_return
| exit_status (code : Z)
| exit_traceback (e : MainExn).

(** What [main] acts on: the files by their path, and standard output. *)
Record Process := mkProcess {
  files : gmap string (list byte);
  lines : list Line
}.

(** [f'rawpcm{i}']. *)
Definition out_path (i : nat) : string :=
  ("rawpcm" ++ str_of_int (Z.of_nat i))%string.

(** Lines 29-33, [for i in range(len(result.samples))], over the indices
    still to come: the file is opened for writing (created or emptied), the
    message is printed, and [result.samples[i].pcm_data] is written. *)
Fixpoint write_samples (samples : list Audio) (indices : list nat)
    (p : Process) : Exit * Process :=
  match indices with
  | [] => (exit_return, p)
  | i :: indices' =>
      let opened :=
        {| files := <[out_path i := []]> (files p);
           lines := lines p
                    ++ [text_line ("Writing raw PCM data to " ++ out_path i
                                   ++ ".")] |} in
      match samples !! i with
      | None => (exit_traceback IndexError, opened)
      | Some a =>
          write_samples samples indices'
            {| files := <[out_path i := pcm_data a]> (files opened);
               lines := lines opened |}
      end
  end.

(** [main()], for the command line [argv].  The argument parser is a library:
    [help_text] is what [parser.print_help()] prints, and [parse_args argv]
    is the [filename] that [parser.parse_args()] delivers, or the status and
    the output with which it ends the process itself.  A path that names no
    file makes [io.open] raise [FileNotFoundError]. *)
Definition main (help_text : string)
    (parse_args : list string -> string + Z * list Line)
    (argv : list string) (p : Process) : Exit * Process :=
  if bool_decide (length argv <= 1)%nat then
    (exit_return,
     {| files := files p; lines := lines p ++ [text_line help_text] |})
  else
    match parse_args argv with
    | inr (code, output) =>
        (exit_status code,
         {| files := files p; lines := lines p ++ output |})
    | inl filename =>
        match files p !! filename with
        | None => (exit_traceback (FileNotFoundError filename), p)
        | Some file =>
            let (outcome, s) := read_run file in
            let p1 := {| files := files p;
                         lines := lines p ++ (dict_line <$> stdout s) |} in
            match outcome with
            | Raised e => (exit_traceback (ReadError e), p1)
            | Returned result =>
                if bool_decide (error result ≠ OK) then
                  (exit_status (Error_value (error result)),
                   {| files := files p1;
                      lines := lines p1
                               ++ [text_line ("Error: " ++ error_msg result)] |})
                else
                  write_samples (samples result)
                    (seq 0 (length (samples result))) p1
            end
        end
    end.

(** An argument parser for the examples: one positional argument. *)
Definition one_argument (argv : list string) : string + Z * list Line :=
  match argv with
  | [_; filename] => inl filename
  | _ => inr (2, [])
  end.


(** A directory that holds a file with a wrong magic string. *)
Definition process_bad_magic : Process :=
  {| files := {["in.pat"%string := bytes_lit "GF1PATCH111"]}; lines := [] |}.

(** ** What a computation can see of the file *)

(** Two states that agree on the bytes from the cursor on, on the result
    and on standard output. *)
Definition same_view (s t : State) : Prop :=
  remaining s = remaining t ∧ result s = result t ∧ stdout s = stdout t.

(** A computation that looks at the file only from the cursor on: from
    states with the same view it produces the same outcome and states with
    the same view. *)
Definition forward_only {A} (c : M A) : Prop :=
  ∀ s t, same_view s t ->
    fst (c s) = fst (c t) ∧ same_view (snd (c s)) (snd (c t)).

(** * Properties *)

(** ** Bytes and two-byte items *)

Lemma byte_val_range b : 0 <= byte_val b < 256.
Proof. unfold byte_val. pose proof (Byte.to_N_bounded b). lia. Qed.

Lemma byte_of_Z_mod z b : z mod 256 = byte_val b -> byte_of_Z z = b.
Proof.
  intros Hz. unfold byte_of_Z. rewrite Hz. unfold byte_val.
  by rewrite N2Z.id, Byte.of_to_N.
Qed.

Lemma byte_of_Z_val b : byte_of_Z (byte_val b) = b.
Proof. apply byte_of_Z_mod, Z.mod_small, byte_val_range. Qed.

Lemma byte_val_of_Z z : byte_val (byte_of_Z z) = z mod 256.
Proof.
  pose proof (Z.mod_pos_bound z 256 eq_refl) as Hb.
  unfold byte_of_Z, byte_val.
  destruct (Byte.of_N (Z.to_N (z mod 256))) as [b|] eqn:E.
  - apply Byte.to_of_N in E. rewrite E. apply Z2N.id, Hb.
  - apply Byte.of_N_None_iff in E. lia.
Qed.

Lemma unpack_H_range b0 b1 : 0 <= unpack_H b0 b1 < 65536.
Proof.
  unfold unpack_H.
  pose proof (byte_val_range b0). pose proof (byte_val_range b1). lia.
Qed.

Lemma unpack_h_range b0 b1 : -32768 <= unpack_h b0 b1 <= 32767.
Proof.
  unfold unpack_h. pose proof (unpack_H_range b0 b1).
  destruct (Z.leb_spec 32768 (unpack_H b0 b1)); lia.
Qed.

(** Packing what ['<h'] unpacked gives the two bytes back. *)
Lemma pack_h_unpack_h b0 b1 : pack_h (unpack_h b0 b1) = [b0; b1].
Proof.
  pose proof (byte_val_range b0). pose proof (byte_val_range b1).
  unfold pack_h, unpack_h, unpack_H.
  destruct (Z.leb_spec 32768 (byte_val b0 + 256 * byte_val b1));
    f_equal; [| f_equal | | f_equal]; apply byte_of_Z_mod;
    Z.div_mod_to_equations; lia.
Qed.

(** Unpacking as ['<h'] what was packed gives the number back. *)
Lemma unpack_h_pack_h v :
  -32768 <= v <= 32767 -> unpack_h (byte_of_Z v) (byte_of_Z (v / 256)) = v.
Proof.
  intros Hv. unfold unpack_h, unpack_H. rewrite !byte_val_of_Z.
  destruct (Z.leb_spec 32768 (v mod 256 + 256 * ((v / 256) mod 256)));
    Z.div_mod_to_equations; lia.
Qed.

Lemma list_pair_ind {A} (P : list A -> Prop) :
  P [] -> (forall a, P [a]) -> (forall a b l, P l -> P (a :: b :: l)) ->
  forall l, P l.
Proof.
  intros H0 H1 H2 l.
  cut (P l /\ forall a, P (a :: l)); [tauto |].
  induction l as [| b l [IHl IHbl]]; split; auto.
Qed.

Lemma Even_mod2 n : Nat.Even n <-> (n mod 2 = 0)%nat.
Proof.
  split.
  - intros [m ->]. by rewrite Nat.mul_comm, Nat.Div0.mod_mul.
  - intros Hn. exists (n / 2)%nat. pose proof (Nat.div_mod_eq n 2). lia.
Qed.

Lemma items_length unpack data :
  Nat.Even (length data) -> length data = (2 * length (items unpack data))%nat.
Proof.
  induction data as [| a | a b l IH] using list_pair_ind; intros Hev.
  - done.
  - destruct Hev as [m Hm]. simpl in Hm. lia.
  - simpl. rewrite IH; [lia |].
    destruct Hev as [m Hm]. simpl in Hm. exists (m - 1)%nat. lia.
Qed.

Lemma items_lookup unpack data i b0 b1 :
  data !! (2 * i)%nat = Some b0 -> data !! (2 * i + 1)%nat = Some b1 ->
  items unpack data !! i = Some (unpack b0 b1).
Proof.
  revert data. induction i as [| i IH]; intros [| a [| b l]]; try done.
  - simpl. by intros [= ->] [= ->].
  - replace (2 * S i)%nat with (S (S (2 * i))) by lia. simpl.
    intros H0 H1. by apply IH.
Qed.

Lemma pack_h_lookup (vs : list Z) i v :
  vs !! i = Some v ->
  flat_map pack_h vs !! (2 * i)%nat = Some (byte_of_Z v)
  /\ flat_map pack_h vs !! (2 * i + 1)%nat = Some (byte_of_Z (v / 256)).
Proof.
  revert i. induction vs as [| w vs IH]; intros [| i]; try done.
  - simpl. by intros [= ->].
  - replace (2 * S i)%nat with (S (S (2 * i))) by lia. simpl.
    intros Hi. by apply IH.
Qed.

Lemma pack_h_items_unpack_h data :
  Nat.Even (length data) -> flat_map pack_h (items unpack_h data) = data.
Proof.
  induction data as [| a | a b l IH] using list_pair_ind; intros Hev.
  - done.
  - destruct Hev as [m Hm]. simpl in Hm. lia.
  - cbn [items flat_map]. rewrite pack_h_unpack_h, IH; [done |].
    destruct Hev as [m Hm]. simpl in Hm. exists (m - 1)%nat. lia.
Qed.

(** ** Packing into the buffer *)

Lemma pack_into_h_app (pre post : list byte) b0 b1 v :
  -32768 <= v <= 32767 ->
  pack_into_h (pre ++ b0 :: b1 :: post) (length pre) v
  = Returned (pre ++ pack_h v ++ post).
Proof.
  intros Hv. unfold pack_into_h.
  destruct (Nat.ltb_spec (length (pre ++ b0 :: b1 :: post)) (length pre + 2))
    as [Hlt | _].
  { rewrite length_app in Hlt. simpl in Hlt. lia. }
  destruct (Z.ltb_spec v (-32768)); [lia |].
  destruct (Z.ltb_spec 32767 v); [lia |]. simpl. f_equal.
  replace (length pre) with (length pre + 0)%nat at 2 by lia.
  rewrite insert_app_r. simpl.
  replace (S (length pre)) with (length pre + 1)%nat by lia.
  by rewrite insert_app_r.
Qed.

(** The loop overwrites the part of the buffer that lies under the words
    and leaves the rest of the buffer alone. *)
Lemma pack_words_app g ws : forall pre mid post : list byte,
  length mid = (2 * length ws)%nat ->
  Forall (fun w => -32768 <= g w <= 32767) ws ->
  pack_words g ws (pre ++ mid ++ post) (length pre)
  = Returned (pre ++ flat_map pack_h (map g ws) ++ post).
Proof.
  induction ws as [| w ws IH]; intros pre mid post Hlen Hrange.
  - destruct mid; [done | simpl in Hlen; lia].
  - destruct mid as [| b0 [| b1 mid]]; simpl in Hlen; try lia.
    apply Forall_cons in Hrange as [Hw Hrange].
    cbn [pack_words]. simpl app.
    rewrite pack_into_h_app by done. cbn [mbind Outcome_bind].
    replace (length pre + 2)%nat with (length (pre ++ pack_h (g w)))
      by (rewrite length_app; simpl; lia).
    replace (pre ++ pack_h (g w) ++ mid ++ post)
      with ((pre ++ pack_h (g w)) ++ mid ++ post) by by rewrite <- app_assoc.
    rewrite IH by (done || lia).
    cbn [map flat_map]. by rewrite <- !app_assoc.
Qed.

Lemma pack_words_zero_buffer g data unpack (n : nat) :
  Nat.Even (length data) -> (length data <= n)%nat ->
  Forall (fun w => -32768 <= g w <= 32767) (items unpack data) ->
  pack_words g (items unpack data) (replicate n Byte.x00) 0
  = Returned (flat_map pack_h (map g (items unpack data))
              ++ replicate (n - length data) Byte.x00).
Proof.
  intros Hev Hle Hrange.
  replace n with (length data + (n - length data))%nat at 1 by lia.
  rewrite replicate_add.
  apply (pack_words_app g _ []); [| done].
  rewrite length_replicate. by apply items_length.
Qed.

Lemma items_Forall (P : Z -> Prop) unpack data :
  (forall b0 b1, P (unpack b0 b1)) -> Forall P (items unpack data).
Proof.
  intros HP. induction data as [| a | a b l IH] using list_pair_ind;
    simpl; auto.
Qed.

(** ** The transcoding step, case by case *)

Lemma truthy_flag modes flag :
  has_flag modes flag <-> truthy (Z.land modes flag) = true.
Proof.
  unfold has_flag, truthy.
  destruct (Z.eqb_spec (Z.land modes flag) 0); simpl; split; done.
Qed.

Lemma not_truthy_flag modes flag :
  ~ has_flag modes flag <-> truthy (Z.land modes flag) = false.
Proof.
  rewrite truthy_flag.
  destruct (truthy (Z.land modes flag)); split; done.
Qed.

Lemma transcode_eight_bit modes dl data :
  ~ has_flag modes Mode.SIXTEEN_BIT ->
  transcode modes dl data = Returned (data, 1).
Proof. intros H%not_truthy_flag. unfold transcode. by rewrite H. Qed.

Lemma transcode_unsigned modes dl data :
  has_flag modes Mode.SIXTEEN_BIT -> has_flag modes Mode.UNSIGNED ->
  Nat.Even (length data) -> (length data <= Z.to_nat dl)%nat ->
  transcode modes dl data
  = Returned (flat_map pack_h (map (fun w => w - 32768) (items unpack_H data))
              ++ replicate (Z.to_nat dl - length data) Byte.x00, 2).
Proof.
  intros H16%truthy_flag Hun%truthy_flag Hev Hle.
  unfold transcode, iter_unpack. rewrite H16, Hun.
  apply Even_mod2 in Hev as Hmod. rewrite Hmod. cbn [mbind Outcome_bind Nat.eqb].
  rewrite (pack_words_zero_buffer _ data unpack_H); [done .. |].
  apply items_Forall. intros b0 b1. pose proof (unpack_H_range b0 b1). lia.
Qed.

Lemma transcode_signed modes dl data :
  has_flag modes Mode.SIXTEEN_BIT -> ~ has_flag modes Mode.UNSIGNED ->
  Nat.Even (length data) -> (length data <= Z.to_nat dl)%nat ->
  transcode modes dl data
  = Returned (data ++ replicate (Z.to_nat dl - length data) Byte.x00, 2).
Proof.
  intros H16%truthy_flag Hun%not_truthy_flag Hev Hle.
  unfold transcode, iter_unpack. rewrite H16, Hun.
  apply Even_mod2 in Hev as Hmod. rewrite Hmod. cbn [mbind Outcome_bind Nat.eqb].
  rewrite (pack_words_zero_buffer _ data unpack_h); [| done .. |].
  - cbn [mbind Outcome_bind mret Outcome_ret].
    by rewrite map_id, pack_h_items_unpack_h.
  - apply items_Forall. intros b0 b1. apply unpack_h_range.
Qed.

Lemma transcode_odd modes dl data :
  has_flag modes Mode.SIXTEEN_BIT -> ~ Nat.Even (length data) ->
  exists msg, transcode modes dl data = Raised (struct_error msg).
Proof.
  intros H16%truthy_flag Hodd. rewrite Even_mod2 in Hodd.
  unfold transcode, iter_unpack. rewrite H16.
  destruct (Nat.eqb_spec (length data mod 2) 0) as [| _]; [done |].
  destruct (truthy (Z.land modes Mode.UNSIGNED)); eexists; reflexivity.
Qed.

(** ** Steps that only read from the file *)

Lemma same_but_pos_refl s : same_but_pos s s.
Proof. by unfold same_but_pos. Qed.

Lemma same_but_pos_trans s1 s2 s3 :
  same_but_pos s1 s2 -> same_but_pos s2 s3 -> same_but_pos s1 s3.
Proof. unfold same_but_pos. intros (-> & -> & ->) (-> & -> & ->). done. Qed.

Lemma reads_only_ret {A} (a : A) : reads_only (mret a).
Proof. intros s. exists a, s. split; [done | apply same_but_pos_refl]. Qed.

Lemma reads_only_bind {A B} (c : M A) (k : A -> M B) :
  reads_only c -> (forall a, reads_only (k a)) -> reads_only (c ≫= k).
Proof.
  intros Hc Hk s. destruct (Hc s) as (a & s1 & Ec & H1).
  destruct (Hk a s1) as (b & s2 & Ek & H2). exists b, s2.
  split; [| by eapply same_but_pos_trans].
  unfold mbind, M_bind. by rewrite Ec.
Qed.

Lemma reads_only_f_read n : reads_only (f_read n).
Proof. intros s. by eexists _, _. Qed.

Lemma reads_only_f_seek_cur n : reads_only (f_seek_cur n).
Proof. intros s. by eexists _, _. Qed.

Lemma reads_only_f_seek_set n : reads_only (f_seek_set n).
Proof. intros s. by eexists _, _. Qed.

Create HintDb reads.
#[local] Hint Resolve reads_only_ret reads_only_f_read reads_only_f_seek_cur
  reads_only_f_seek_set : reads.

Ltac reads_only_steps :=
  repeat (apply reads_only_bind; [auto with reads | intros ?]);
  auto with reads.

Lemma reads_only_read_int n : reads_only (read_int n).
Proof. unfold read_int. reads_only_steps. Qed.

#[local] Hint Resolve reads_only_read_int : reads.

Lemma reads_only_read_sample_record : reads_only read_sample_record.
Proof. unfold read_sample_record. reads_only_steps. Qed.

Lemma reads_only_read_count offset : reads_only (read_count offset).
Proof. unfold read_count. reads_only_steps. Qed.

Lemma read_sample_data_returned info s d w :
  transcode (modes info) (data_length info) (available (data_length info) s)
  = Returned (d, w) ->
  read_sample_data info s
  = (Returned tt,
     after_sample s (length (available (data_length info) s)) (mkAudio d w) info).
Proof.
  intros Ht. unfold read_sample_data, f_read, lift, mbind, M_bind.
  rewrite Ht. reflexivity.
Qed.

Lemma read_sample_data_raised info s e :
  transcode (modes info) (data_length info) (available (data_length info) s)
  = Raised e ->
  fst (read_sample_data info s) = Raised e.
Proof.
  intros Ht. unfold read_sample_data, f_read, lift, mbind, M_bind.
  rewrite Ht. reflexivity.
Qed.


Lemma int_from_bytes_little_nonneg bs : 0 <= int_from_bytes_little bs.
Proof.
  induction bs as [| b bs IH]; simpl; [lia |].
  pose proof (byte_val_range b). lia.
Qed.

Lemma zero_means_one_pos n : 0 <= n -> 1 <= zero_means_one n.
Proof. intros Hn. unfold zero_means_one. destruct (Z.eqb_spec n 0); simpl; lia. Qed.

Lemma count_byte_nonneg offset file : 0 <= count_byte offset file.
Proof. apply int_from_bytes_little_nonneg. Qed.

Lemma read_count_run offset s :
  read_count offset s
  = (Returned (zero_means_one (count_byte offset (content s))),
     {| content := content s;
        pos := (offset + length (take 1 (drop offset (content s))))%nat;
        result := result s; stdout := stdout s |}).
Proof. reflexivity. Qed.

Lemma read_count_guard offset s :
  (zero_means_one (count_byte offset (content s)) <=? 0) = false.
Proof.
  pose proof (zero_means_one_pos _ (count_byte_nonneg offset (content s))).
  apply Z.leb_gt. lia.
Qed.

Lemma read_run_eq file :
  read_run file =
  if bool_decide (take 11 file ≠ bytes_lit "GF1PATCH110")
     && bool_decide (take 11 file ≠ bytes_lit "GF1PATCH100") then
    (Returned {| error := BAD_HEADER;
                 error_msg := "Invalid Gravis patch file.";
                 samples := [] |},
     {| content := file; pos := length (take 11 file);
        result := {| error := BAD_HEADER;
                     error_msg := "Invalid Gravis patch file.";
                     samples := [] |};
        stdout := [] |})
  else
    match for_range (Z.to_nat (count_byte 198 file)) read_sample
            (samples_start file) with
    | (Returned _, s') => (Returned (result s'), s')
    | (Raised e, s') => (Raised e, s')
    end.
Proof.
  unfold read_run, read_body.
  unfold mbind at 1. unfold M_bind at 1.
  cbn [f_read open available content pos Z.ltb Z.compare result stdout].
  change (Z.to_nat 11) with 11%nat. change (drop 0 file) with file.
  destruct (bool_decide _ && bool_decide _); [reflexivity |].
  unfold mbind at 1. unfold M_bind at 1.
  rewrite read_count_run, read_count_guard.
  unfold mbind at 1. unfold M_bind at 1.
  rewrite read_count_run, read_count_guard.
  reflexivity.
Qed.

(** ** The loop over the samples *)

Lemma transcode_width modes dl data d w :
  transcode modes dl data = Returned (d, w) ->
  w = if truthy (Z.land modes Mode.SIXTEEN_BIT) then 2 else 1.
Proof.
  unfold transcode, iter_unpack.
  destruct (truthy (Z.land modes Mode.SIXTEEN_BIT)); [| by intros [= _ <-]].
  destruct (truthy (Z.land modes Mode.UNSIGNED));
    destruct (length data mod 2 =? 0)%nat; cbn [mbind Outcome_bind];
    try discriminate;
    destruct (pack_words _ _ _ _); cbn [mbind Outcome_bind mret Outcome_ret];
    by intros [= _ <-].
Qed.

Lemma read_sample_run s :
  exists info s1,
    read_sample_record s = (Returned info, s1) /\ same_but_pos s s1
    /\ read_sample s = read_sample_data info s1.
Proof.
  destruct (reads_only_read_sample_record s) as (info & s1 & E & Hs).
  exists info, s1. split; [exact E | split; [exact Hs |]].
  unfold read_sample, mbind, M_bind. rewrite E. reflexivity.
Qed.

Lemma read_sample_decoded s s' :
  read_sample s = (Returned tt, s') -> decoded 1 s s'.
Proof.
  destruct (read_sample_run s) as (info & s1 & _ & (Hc & Hr & Ho) & ->).
  destruct (transcode (modes info) (data_length info)
              (available (data_length info) s1)) as [[d w] | e] eqn:Ht.
  - rewrite (read_sample_data_returned _ _ _ _ Ht). intros [= <-].
    unfold decoded, after_sample. cbn [content result stdout error error_msg samples].
    rewrite Hc, Hr, Ho. repeat split.
    exists [mkAudio d w], [info]. repeat split.
    constructor; [| constructor].
    by apply transcode_width in Ht.
  - intros E. apply (f_equal fst) in E.
    rewrite (read_sample_data_raised _ _ _ Ht) in E. discriminate.
Qed.

Lemma decoded_zero s : decoded 0 s s.
Proof.
  repeat split. exists [], []. rewrite !app_nil_r. repeat split. constructor.
Qed.

Lemma decoded_trans n m s1 s2 s3 :
  decoded n s1 s2 -> decoded m s2 s3 -> decoded (n + m) s1 s3.
Proof.
  intros (Hc1 & He1 & Hm1 & l1 & i1 & Hs1 & Ho1 & Hl1 & Hw1)
         (Hc2 & He2 & Hm2 & l2 & i2 & Hs2 & Ho2 & Hl2 & Hw2).
  repeat split; try congruence.
  exists (l1 ++ l2), (i1 ++ i2).
  rewrite Hs2, Hs1, Ho2, Ho1, !app_assoc, length_app. repeat split.
  - lia.
  - by apply Forall2_app.
Qed.

Lemma for_range_S n body s :
  for_range (S n) body s
  = match body s with
    | (Returned _, s') => for_range n body s'
    | (Raised e, s') => (Raised e, s')
    end.
Proof. reflexivity. Qed.

Lemma for_range_decoded n : forall s s',
  for_range n read_sample s = (Returned tt, s') -> decoded n s s'.
Proof.
  induction n as [| n IH]; intros s s'.
  - intros [= <-]. apply decoded_zero.
  - rewrite for_range_S.
    destruct (read_sample s) as [[[] | e] s1] eqn:E1; [| discriminate].
    intros E2. apply (decoded_trans 1 n s s1 s'); auto using read_sample_decoded.
Qed.

(** An exception in iteration [k] of the loop ends the loop. *)
Lemma for_range_raised k m body : forall s s1 e,
  for_range k body s = (Returned tt, s1) ->
  fst (body s1) = Raised e ->
  fst (for_range (k + S m) body s) = Raised e.
Proof.
  induction k as [| k IH]; intros s s1 e.
  - intros [= <-] Hb. simpl Nat.add. rewrite for_range_S.
    destruct (body s) as [[u | e'] s2]; simpl in Hb; [discriminate |].
    by simpl.
  - simpl Nat.add. rewrite !for_range_S.
    destruct (body s) as [[u | e'] s2]; [| discriminate].
    apply IH.
Qed.

(** ** The end-to-end scenarios *)

Example read_patch_eight_bit :
  read patch_eight_bit
  = Returned {| error := OK; error_msg := "";
                samples := [mkAudio [Byte.x10; Byte.x20; Byte.x30; Byte.x40] 1] |}.
Proof. vm_compute. reflexivity. Qed.

Example read_patch_unsigned :
  read patch_unsigned
  = Returned {| error := OK; error_msg := "";
                samples := [mkAudio [Byte.x00; Byte.x00; Byte.x00; Byte.x80] 2] |}.
Proof. vm_compute. reflexivity. Qed.

(** ** The PCM transcoding step *)

(** C1: with SIXTEEN_BIT and UNSIGNED set, the transcoding step recentres
    every unsigned little-endian 16-bit value [u] of an even-length payload:
    the two bytes written at the same place read, as a signed little-endian
    16-bit value, [u - 32768].  In particular 00 80 (32768) becomes 00 00
    and FF FF (65535) becomes FF 7F (32767). *)
Theorem transcode_unsigned_recentres (modes dl : Z) (data : list byte) :
  has_flag modes Mode.SIXTEEN_BIT -> has_flag modes Mode.UNSIGNED ->
  Nat.Even (length data) -> (length data <= Z.to_nat dl)%nat ->
  (exists out,
     transcode modes dl data = Returned (out, 2)
     /\ length out = Z.to_nat dl
     /\ forall i b0 b1,
          data !! (2 * i)%nat = Some b0 -> data !! (2 * i + 1)%nat = Some b1 ->
          exists c0 c1,
            out !! (2 * i)%nat = Some c0 /\ out !! (2 * i + 1)%nat = Some c1
            /\ unpack_h c0 c1 = unpack_H b0 b1 - 32768)
  /\ transcode modes 2 [Byte.x00; Byte.x80] = Returned ([Byte.x00; Byte.x00], 2)
  /\ transcode modes 2 [Byte.xff; Byte.xff] = Returned ([Byte.xff; Byte.x7f], 2).
Proof.
  intros H16 Hun Hev Hle. split; [| split].
  - eexists. split; [by apply transcode_unsigned |]. split.
    + rewrite length_app, length_replicate.
      rewrite (items_length unpack_H data Hev).
      assert (length (flat_map pack_h
                (map (fun w => w - 32768) (items unpack_H data)))
              = (2 * length (items unpack_H data))%nat) as ->.
      { induction (items unpack_H data); simpl in *; lia. }
      rewrite (items_length unpack_H data Hev) in Hle. lia.
    + intros i b0 b1 H0 H1.
      pose proof (items_lookup unpack_H data i b0 b1 H0 H1) as Hw.
      apply (f_equal (fmap (fun w => w - 32768))) in Hw.
      rewrite <- list_lookup_fmap in Hw. cbn [fmap option_fmap option_map] in Hw.
      apply pack_h_lookup in Hw as [Hlo Hhi].
      eexists _, _. split; [| split].
      * apply lookup_app_l_Some, Hlo.
      * apply lookup_app_l_Some, Hhi.
      * apply unpack_h_pack_h. pose proof (unpack_H_range b0 b1). lia.
  - rewrite transcode_unsigned; try done. exists 1%nat. done.
  - rewrite transcode_unsigned; try done. exists 1%nat. done.
Qed.

Lemma transcode_unsigned_recentres_witness :
  (exists out,
     transcode 3 4 [Byte.x00; Byte.x80; Byte.xff; Byte.xff] = Returned (out, 2)
     /\ length out = Z.to_nat 4
     /\ forall i b0 b1,
          [Byte.x00; Byte.x80; Byte.xff; Byte.xff] !! (2 * i)%nat = Some b0 ->
          [Byte.x00; Byte.x80; Byte.xff; Byte.xff] !! (2 * i + 1)%nat = Some b1 ->
          exists c0 c1,
            out !! (2 * i)%nat = Some c0 /\ out !! (2 * i + 1)%nat = Some c1
            /\ unpack_h c0 c1 = unpack_H b0 b1 - 32768)
  /\ transcode 3 2 [Byte.x00; Byte.x80] = Returned ([Byte.x00; Byte.x00], 2)
  /\ transcode 3 2 [Byte.xff; Byte.xff] = Returned ([Byte.xff; Byte.x7f], 2).
Proof.
  apply (transcode_unsigned_recentres 3 4
           [Byte.x00; Byte.x80; Byte.xff; Byte.xff]).
  - unfold has_flag. vm_compute. discriminate.
  - unfold has_flag. vm_compute. discriminate.
  - exists 2%nat. reflexivity.
  - vm_compute. lia.
Defined.

(** C6: with SIXTEEN_BIT set and UNSIGNED clear, and the full even-length
    payload at hand, the transcoding step returns a buffer that is byte for
    byte its input, so of the same length. *)
Theorem transcode_signed_identity (modes dl : Z) (data : list byte) :
  has_flag modes Mode.SIXTEEN_BIT -> ~ has_flag modes Mode.UNSIGNED ->
  Nat.Even (length data) -> dl = Z.of_nat (length data) ->
  exists out,
    transcode modes dl data = Returned (out, 2)
    /\ out = data /\ Z.of_nat (length out) = dl.
Proof.
  intros H16 Hun Hev ->. exists data. split; [| done].
  rewrite transcode_signed by (done || lia).
  rewrite Nat2Z.id, Nat.sub_diag. simpl. by rewrite app_nil_r.
Qed.

Lemma transcode_signed_identity_witness :
  exists out,
    transcode 1 4 [Byte.x01; Byte.x80; Byte.xff; Byte.x7f] = Returned (out, 2)
    /\ out = [Byte.x01; Byte.x80; Byte.xff; Byte.x7f]
    /\ Z.of_nat (length out) = 4.
Proof.
  apply (transcode_signed_identity 1 4
           [Byte.x01; Byte.x80; Byte.xff; Byte.x7f]).
  - unfold has_flag. vm_compute. discriminate.
  - unfold has_flag. vm_compute. intros H. apply H. reflexivity.
  - exists 2%nat. reflexivity.
  - reflexivity.
Defined.

(** ** The header *)

(** C3: a file whose first 11 bytes are neither "GF1PATCH110" nor
    "GF1PATCH100" (a file shorter than 11 bytes included) makes [read] return
    BAD_HEADER with the message 'Invalid Gravis patch file.' and no sample,
    whatever else the file holds. *)
Theorem read_bad_header (file : list byte) :
  ~ accepted_magic file ->
  read file
  = Returned {| error := BAD_HEADER;
                error_msg := "Invalid Gravis patch file.";
                samples := [] |}.
Proof.
  intros Hmagic. unfold read. rewrite read_run_eq.
  rewrite !bool_decide_true; [done | |];
    intros E; apply Hmagic; [by right | by left].
Qed.

Lemma read_bad_header_witness :
  read (bytes_lit "GF1PATCH111" ++ drop 11 patch_eight_bit)
  = Returned {| error := BAD_HEADER;
                error_msg := "Invalid Gravis patch file.";
                samples := [] |}.
Proof.
  apply (read_bad_header (bytes_lit "GF1PATCH111" ++ drop 11 patch_eight_bit)).
  unfold accepted_magic. vm_compute. intros [H | H]; discriminate H.
Defined.

Lemma count_byte_lookup offset file b :
  file !! offset = Some b -> count_byte offset file = byte_val b.
Proof.
  intros Hb. unfold count_byte. rewrite (drop_S _ _ _ Hb). simpl. lia.
Qed.

Lemma accepted_magic_guard file :
  accepted_magic file ->
  bool_decide (take 11 file ≠ bytes_lit "GF1PATCH110")
  && bool_decide (take 11 file ≠ bytes_lit "GF1PATCH100") = false.
Proof.
  intros [E | E].
  - rewrite bool_decide_false; [done | by intros H].
  - rewrite (bool_decide_false (_ ≠ bytes_lit "GF1PATCH100"));
      [apply andb_false_r | by intros H].
Qed.

(** C8: a file with an accepted magic string whose sample-count byte (offset
    198) is 0 makes [read] return the result with no sample and error OK. *)
Theorem read_no_sample (file : list byte) :
  accepted_magic file -> file !! 198%nat = Some Byte.x00 ->
  read file = Returned {| error := OK; error_msg := ""; samples := [] |}.
Proof.
  intros Hmagic Hcount. unfold read.
  rewrite read_run_eq, (accepted_magic_guard _ Hmagic).
  by rewrite (count_byte_lookup _ _ _ Hcount).
Qed.

Lemma read_no_sample_witness :
  read patch_no_sample
  = Returned {| error := OK; error_msg := ""; samples := [] |}.
Proof.
  apply (read_no_sample patch_no_sample).
  - left. vm_compute. reflexivity.
  - vm_compute. reflexivity.
Defined.

(** What [read] returns carries error OK or BAD_HEADER. *)
Lemma read_error_cases file r :
  read file = Returned r ->
  (error r = BAD_HEADER /\ samples r = [] /\ ~ accepted_magic file)
  \/ (error r = OK /\ accepted_magic file
      /\ length (samples r) = Z.to_nat (count_byte 198 file)
      /\ Forall2 width_matches (printed file) (samples r)).
Proof.
  unfold read, printed. rewrite read_run_eq.
  destruct (bool_decide _ && bool_decide _) eqn:Hguard.
  - intros [= <-]. left. repeat split.
    intros Hmagic%accepted_magic_guard. congruence.
  - destruct (for_range _ _ _) as [[[] | e] s'] eqn:Hloop; [| discriminate].
    intros [= <-]. right.
    apply for_range_decoded in Hloop
      as (_ & Herr & _ & new & infos & Hnew & Hout & Hlen & Hwidth).
    cbn [snd]. rewrite Herr, Hnew, Hout. repeat split; try done.
    apply andb_false_iff in Hguard as [H | H];
      apply bool_decide_eq_false in H; [left | right].
    + by destruct (decide (take 11 file = bytes_lit "GF1PATCH110")).
    + by destruct (decide (take 11 file = bytes_lit "GF1PATCH100")).
Qed.

(** C9: the corrected instrument and layer counts are at least 1, and
    [read] returns neither TOO_MANY_INSTRUMENTS nor TOO_MANY_LAYERS. *)
Theorem read_never_too_many (file : list byte) (r : Result)
    (offset : nat) (s : State) :
  read file = Returned r ->
  (exists num s', read_count offset s = (Returned num, s') /\ 1 <= num)
  /\ error r ≠ TOO_MANY_INSTRUMENTS /\ error r ≠ TOO_MANY_LAYERS.
Proof.
  intros Hr. split.
  - eexists _, _. split; [apply read_count_run |].
    apply zero_means_one_pos, count_byte_nonneg.
  - destruct (read_error_cases _ _ Hr) as [(-> & _) | (-> & _)]; done.
Qed.

Lemma read_never_too_many_witness :
  (exists num s',
     read_count 82 (open patch_odd) = (Returned num, s') /\ 1 <= num)
  /\ error (mkResult OK "" [mkAudio [Byte.x10; Byte.x20; Byte.x30; Byte.x40] 1])
     ≠ TOO_MANY_INSTRUMENTS
  /\ error (mkResult OK "" [mkAudio [Byte.x10; Byte.x20; Byte.x30; Byte.x40] 1])
     ≠ TOO_MANY_LAYERS.
Proof.
  apply (read_never_too_many patch_eight_bit _ 82%nat (open patch_odd)).
  vm_compute. reflexivity.
Defined.

(** C7: a count byte of 0 at offset 82 (instruments) or 151 (layers) is
    corrected to 1; the correction applied twice is the correction applied
    once, and it leaves a count other than 0 as it is. *)
Theorem zero_count_means_one (offset : nat) (s : State) (num : Z) :
  offset = 82%nat \/ offset = 151%nat ->
  content s !! offset = Some Byte.x00 ->
  (exists s', read_count offset s = (Returned 1, s'))
  /\ zero_means_one 0 = 1
  /\ zero_means_one (zero_means_one num) = zero_means_one num
  /\ (num ≠ 0 -> zero_means_one num = num).
Proof.
  intros _ Hbyte. repeat split.
  - eexists. rewrite read_count_run, (count_byte_lookup _ _ _ Hbyte).
    reflexivity.
  - unfold zero_means_one.
    destruct (Z.eqb_spec num 0) as [-> | Hnum]; [done |].
    simpl. rewrite Z.add_0_r. destruct (Z.eqb_spec num 0); simpl; lia.
  - intros Hnum. unfold zero_means_one.
    destruct (Z.eqb_spec num 0); simpl; lia.
Qed.

Lemma zero_count_means_one_witness :
  (exists s', read_count 151 (open patch_odd) = (Returned 1, s'))
  /\ zero_means_one 0 = 1
  /\ zero_means_one (zero_means_one 7) = zero_means_one 7
  /\ (7 ≠ 0 -> zero_means_one 7 = 7).
Proof.
  apply (zero_count_means_one 151 (open patch_odd) 7).
  - right. reflexivity.
  - vm_compute. reflexivity.
Defined.

(** ** The result as a whole *)

(** C4, as stated, fails: a header that declares no sample gives no sample
    and no error. *)
Lemma no_sample_without_error :
  ~ (forall r, read patch_no_sample = Returned r ->
               (samples r = [] <-> error r ≠ OK)).
Proof.
  intros H.
  destruct (H {| error := OK; error_msg := ""; samples := [] |}) as [Hne _].
  - vm_compute. reflexivity.
  - by apply Hne.
Qed.

(** C4, amended: the samples of the result that [read] returns are empty if
    and only if an error is reported or the sample-count byte is 0 (or the
    file ends before it); with error OK there are as many samples as that
    byte says. *)
Theorem samples_empty_iff (file : list byte) (r : Result) :
  read file = Returned r ->
  (samples r = [] <-> error r ≠ OK \/ count_byte 198 file = 0)
  /\ (error r = OK ->
      Z.of_nat (length (samples r)) = count_byte 198 file).
Proof.
  intros Hr. pose proof (count_byte_nonneg 198 file) as Hc.
  destruct (read_error_cases _ _ Hr)
    as [(He & Hs & _) | (He & _ & Hlen & _)]; rewrite He.
  - split; [| done]. rewrite Hs. split; [by left | done].
  - split; [| lia]. split.
    + intros Hs. rewrite Hs in Hlen. simpl in Hlen. right. lia.
    + intros [Hne | Hz]; [done |]. rewrite Hz in Hlen.
      by destruct (samples r).
Qed.

Lemma samples_empty_iff_witness :
  (samples (mkResult OK "" []) = []
   <-> error (mkResult OK "" []) ≠ OK \/ count_byte 198 patch_no_sample = 0)
  /\ (error (mkResult OK "" []) = OK ->
      Z.of_nat (length (samples (mkResult OK "" [])))
      = count_byte 198 patch_no_sample).
Proof.
  apply (samples_empty_iff patch_no_sample (mkResult OK "" [])).
  vm_compute. reflexivity.
Defined.

(** ** The sample block *)

(** C5: a sample block that returns has appended one audio unit; when the
    modes read from the record lack SIXTEEN_BIT its width is 1 and its data
    are the payload bytes as [f.read] returned them, and when SIXTEEN_BIT is
    set its width is 2, whatever the other flags are. *)
Theorem sample_width_by_mode (s s' : State) :
  read_sample s = (Returned tt, s') ->
  exists info s1 a,
    read_sample_record s = (Returned info, s1)
    /\ samples (result s') = samples (result s) ++ [a]
    /\ (~ has_flag (modes info) Mode.SIXTEEN_BIT ->
        sample_width_in_bytes a = 1
        /\ pcm_data a = available (data_length info) s1)
    /\ (has_flag (modes info) Mode.SIXTEEN_BIT ->
        sample_width_in_bytes a = 2).
Proof.
  destruct (read_sample_run s) as (info & s1 & Hrec & (_ & Hres & _) & ->).
  destruct (transcode (modes info) (data_length info)
              (available (data_length info) s1)) as [[d w] | e] eqn:Ht.
  - rewrite (read_sample_data_returned _ _ _ _ Ht). intros [= <-].
    exists info, s1, (mkAudio d w). split; [done |]. split.
    { cbn [after_sample result samples]. by rewrite Hres. }
    cbn [sample_width_in_bytes pcm_data]. split.
    + intros H8. rewrite transcode_eight_bit in Ht by done.
      injection Ht as Hd Hw. rewrite <- Hd, <- Hw. split; reflexivity.
    + intros H16%truthy_flag. apply transcode_width in Ht.
      by rewrite H16 in Ht.
  - intros E. apply (f_equal fst) in E.
    rewrite (read_sample_data_raised _ _ _ Ht) in E. discriminate.
Qed.

Lemma sample_width_by_mode_witness :
  exists info s1 a,
    read_sample_record (samples_start patch_unsigned) = (Returned info, s1)
    /\ samples (result (snd (read_sample (samples_start patch_unsigned))))
       = samples (result (samples_start patch_unsigned)) ++ [a]
    /\ (~ has_flag (modes info) Mode.SIXTEEN_BIT ->
        sample_width_in_bytes a = 1
        /\ pcm_data a = available (data_length info) s1)
    /\ (has_flag (modes info) Mode.SIXTEEN_BIT ->
        sample_width_in_bytes a = 2).
Proof.
  apply (sample_width_by_mode (samples_start patch_unsigned)
           (snd (read_sample (samples_start patch_unsigned)))).
  vm_compute. reflexivity.
Defined.

(** C10: when the loop has decoded [k] samples, the next record has
    SIXTEEN_BIT set and [f.read(data_length)] returns an odd number of
    bytes, [struct.error] escapes from [read]: no result is returned. *)
Theorem read_odd_sixteen_bit_raises (file : list byte) (k : nat)
    (s s1 : State) (info : SampleInfo) :
  accepted_magic file ->
  (k < Z.to_nat (count_byte 198 file))%nat ->
  for_range k read_sample (samples_start file) = (Returned tt, s) ->
  read_sample_record s = (Returned info, s1) ->
  has_flag (modes info) Mode.SIXTEEN_BIT ->
  ~ Nat.Even (length (available (data_length info) s1)) ->
  exists msg, read file = Raised (struct_error msg).
Proof.
  intros Hmagic Hk Hloop Hrec H16 Hodd.
  destruct (transcode_odd _ (data_length info) _ H16 Hodd) as [msg Ht].
  exists msg. apply read_sample_data_raised in Ht.
  assert (fst (read_sample s) = Raised (struct_error msg)) as Hbody.
  { unfold read_sample, mbind, M_bind. by rewrite Hrec. }
  pose proof (for_range_raised k (Z.to_nat (count_byte 198 file) - S k)
                read_sample _ _ _ Hloop Hbody) as Hraise.
  replace (k + S (Z.to_nat (count_byte 198 file) - S k))%nat
    with (Z.to_nat (count_byte 198 file)) in Hraise by lia.
  clear Hloop Hbody Hrec Ht.
  unfold read. rewrite read_run_eq, (accepted_magic_guard _ Hmagic).
  destruct (for_range (Z.to_nat (count_byte 198 file)) read_sample
              (samples_start file)) as [[u | e] s2];
    cbn [fst] in Hraise |- *; congruence.
Qed.

Lemma read_odd_sixteen_bit_raises_witness :
  exists msg, read patch_odd = Raised (struct_error msg).
Proof.
  apply (read_odd_sixteen_bit_raises patch_odd 0 (samples_start patch_odd)
           odd_state odd_info).
  - right. vm_compute. reflexivity.
  - vm_compute. lia.
  - reflexivity.
  - vm_compute. reflexivity.
  - unfold has_flag. vm_compute. discriminate.
  - replace (length (available (data_length odd_info) odd_state))
      with 3%nat by (vm_compute; reflexivity).
    intros [m Hm]. lia.
Defined.

(** ** Truncated files *)

Lemma available_short n s :
  (length (remaining s) < Z.to_nat n)%nat -> available n s = remaining s.
Proof.
  intros Hlt. unfold available.
  destruct (Z.ltb_spec n 0); [done |]. apply take_ge. lia.
Qed.

(** With SIXTEEN_BIT set and an even number of bytes at hand, the step
    returns [data_length] bytes: as many as were at hand, then zeros. *)
Lemma transcode_sixteen_even modes dl data :
  has_flag modes Mode.SIXTEEN_BIT ->
  Nat.Even (length data) -> (length data <= Z.to_nat dl)%nat ->
  exists out,
    transcode modes dl data
    = Returned (out ++ replicate (Z.to_nat dl - length data) Byte.x00, 2)
    /\ length out = length data.
Proof.
  intros H16 Hev Hle.
  destruct (decide (has_flag modes Mode.UNSIGNED)) as [Hun | Hun].
  - eexists. split; [by apply transcode_unsigned |].
    rewrite (items_length unpack_H data Hev).
    induction (items unpack_H data); simpl in *; lia.
  - exists data. split; [by apply transcode_signed | done].
Qed.

(** C2, as stated, fails: the sample declares 4 payload bytes, the file
    holds 2 of them, and [read] returns error OK with a 2-byte buffer
    (SIXTEEN_BIT clear) or with a buffer padded with zeros to 4 bytes
    (SIXTEEN_BIT set). *)
Lemma truncated_payload_returned :
  data_length <$> printed patch_truncated = [4]
  /\ length (drop (239 + 96) patch_truncated) = 2%nat
  /\ read patch_truncated
     = Returned {| error := OK; error_msg := "";
                   samples := [mkAudio [Byte.x10; Byte.x20] 1] |}
  /\ read patch_truncated_sixteen
     = Returned {| error := OK; error_msg := "";
                   samples :=
                     [mkAudio [Byte.x10; Byte.x20; Byte.x00; Byte.x00] 2] |}.
Proof. vm_compute. repeat split. Qed.

(** C2, amended: when fewer bytes are left in the file than the record
    declares, reading the payload reports nothing.  With SIXTEEN_BIT clear
    the audio unit carries the bytes that were left; with SIXTEEN_BIT set and
    an even number of bytes left it carries [data_length] bytes that are zero
    from the end of those bytes on.  The only error [read] ever returns is
    BAD_HEADER. *)
Theorem truncated_payload_not_reported (info : SampleInfo) (s : State) :
  (length (remaining s) < Z.to_nat (data_length info))%nat ->
  (~ has_flag (modes info) Mode.SIXTEEN_BIT ->
   read_sample_data info s
   = (Returned tt,
      after_sample s (length (remaining s)) (mkAudio (remaining s) 1) info))
  /\ (has_flag (modes info) Mode.SIXTEEN_BIT ->
      Nat.Even (length (remaining s)) ->
      exists out,
        read_sample_data info s
        = (Returned tt,
           after_sample s (length (remaining s)) (mkAudio out 2) info)
        /\ length out = Z.to_nat (data_length info)
        /\ forall i,
             (length (remaining s) <= i < Z.to_nat (data_length info))%nat ->
             out !! i = Some Byte.x00)
  /\ (forall r, read (content s) = Returned r ->
                error r = OK \/ error r = BAD_HEADER).
Proof.
  intros Hshort. pose proof (available_short _ _ Hshort) as Hav.
  split; [| split].
  - intros H8. erewrite read_sample_data_returned.
    + by rewrite Hav.
    + rewrite Hav. by apply transcode_eight_bit.
  - intros H16 Hev.
    destruct (transcode_sixteen_even (modes info) (data_length info)
                (remaining s) H16 Hev) as (out & Ht & Hlen); [lia |].
    eexists. split; [| split].
    + erewrite read_sample_data_returned; rewrite Hav; [done | exact Ht].
    + rewrite length_app, length_replicate. lia.
    + intros i Hi. rewrite lookup_app_r by lia.
      apply lookup_replicate_2. lia.
  - intros r Hr. destruct (read_error_cases _ _ Hr) as [(-> & _) | (-> & _)];
      [by right | by left].
Qed.

Lemma truncated_payload_not_reported_witness :
  (~ has_flag (modes truncated_info) Mode.SIXTEEN_BIT ->
   read_sample_data truncated_info truncated_state
   = (Returned tt,
      after_sample truncated_state (length (remaining truncated_state))
        (mkAudio (remaining truncated_state) 1) truncated_info))
  /\ (has_flag (modes truncated_info) Mode.SIXTEEN_BIT ->
      Nat.Even (length (remaining truncated_state)) ->
      exists out,
        read_sample_data truncated_info truncated_state
        = (Returned tt,
           after_sample truncated_state (length (remaining truncated_state))
             (mkAudio out 2) truncated_info)
        /\ length out = Z.to_nat (data_length truncated_info)
        /\ forall i,
             (length (remaining truncated_state) <= i
              < Z.to_nat (data_length truncated_info))%nat ->
             out !! i = Some Byte.x00)
  /\ (forall r, read (content truncated_state) = Returned r ->
                error r = OK \/ error r = BAD_HEADER).
Proof.
  apply (truncated_payload_not_reported truncated_info truncated_state).
  vm_compute. lia.
Defined.

(** The state and the record of the witness are those that [read] reaches. *)
Example truncated_state_reached :
  read_sample_record (samples_start patch_truncated_sixteen)
  = (Returned truncated_info, truncated_state).
Proof. vm_compute. reflexivity. Qed.

(** * Further properties *)

(** ** Reading at a known cursor *)

Lemma set_pos_id s : set_pos (pos s) s = s.
Proof. by destruct s. Qed.

Lemma bind_f_seek_cur {B} (k : unit -> M B) j p s :
  (f_seek_cur j ≫= k) (set_pos p s) = k tt (set_pos (p + j) s).
Proof. reflexivity. Qed.

Lemma bind_read_int {B} (k : Z -> M B) n p s :
  (read_int n ≫= k) (set_pos p s)
  = k (int_from_bytes_little (available n (set_pos p s)))
      (set_pos (p + length (available n (set_pos p s))) s).
Proof. reflexivity. Qed.

(** Enough bytes are left: the read is full. *)
Lemma bind_read_int_full {B} (k : Z -> M B) n p s :
  0 <= n -> (p + Z.to_nat n <= length (content s))%nat ->
  (read_int n ≫= k) (set_pos p s)
  = k (int_from_bytes_little (take (Z.to_nat n) (drop p (content s))))
      (set_pos (p + Z.to_nat n) s).
Proof.
  intros Hn Hlen. rewrite bind_read_int. unfold available, remaining.
  destruct (Z.ltb_spec n 0); [lia |]. cbn [pos content set_pos].
  by rewrite length_take, length_drop, Nat.min_l by lia.
Qed.

(** The cursor is at or behind the end: the read is empty. *)
Lemma bind_read_int_eof {B} (k : Z -> M B) n p s :
  (length (content s) <= p)%nat ->
  (read_int n ≫= k) (set_pos p s) = k 0 (set_pos p s).
Proof.
  intros Hlen. rewrite bind_read_int. unfold available, remaining.
  cbn [pos content set_pos]. rewrite drop_ge by done.
  destruct (n <? 0); simpl; by rewrite ?take_nil, Nat.add_0_r.
Qed.

Lemma int_from_bytes_little_bound bs :
  0 <= int_from_bytes_little bs < 256 ^ Z.of_nat (length bs).
Proof.
  induction bs as [| b bs IH].
  - simpl. lia.
  - cbn [int_from_bytes_little length]. pose proof (byte_val_range b).
    rewrite Nat2Z.inj_succ, Z.pow_succ_r by lia. lia.
Qed.

Lemma available_length n s :
  0 <= n -> (length (available n s) <= Z.to_nat n)%nat.
Proof.
  intros Hn. unfold available. destruct (Z.ltb_spec n 0); [lia |].
  rewrite length_take. lia.
Qed.

(** Whatever is left: the number read fits [n] bytes. *)
Lemma bind_read_int_bounded n p s :
  0 <= n ->
  exists v q,
    0 <= v < 256 ^ n
    /\ forall B (k : Z -> M B), (read_int n ≫= k) (set_pos p s) = k v (set_pos q s).
Proof.
  intros Hn. eexists _, _. split; [| intros B k; apply bind_read_int].
  pose proof (int_from_bytes_little_bound (available n (set_pos p s))) as Hb.
  pose proof (available_length n (set_pos p s) Hn) as Hl.
  split; [lia |]. eapply Z.lt_le_trans; [apply Hb |].
  apply Z.pow_le_mono_r; lia.
Qed.

(** ** The record in front of the payload *)

Lemma read_sample_record_layout_at p s :
  (p + 96 <= length (content s))%nat ->
  read_sample_record (set_pos p s)
  = (Returned (record_at (set_pos p s)), set_pos (p + 96) s).
Proof.
  intros Hlen. unfold read_sample_record.
  repeat (rewrite bind_f_seek_cur
          || rewrite bind_read_int_full by (cbn; lia)).
  unfold record_at, field. cbn [pos content set_pos mret M_ret Z.to_nat Pos.to_nat Pos.iter_op Nat.add].
  rewrite <- !Nat.add_assoc. cbn [Nat.add].
  reflexivity.
Qed.

(** X1: with at least 96 bytes left, the record step takes every field
    from its fixed offset behind the cursor and leaves the cursor 96 bytes
    further, in front of the payload. *)
Theorem read_sample_record_layout (s : State) :
  (96 <= length (remaining s))%nat ->
  read_sample_record s = (Returned (record_at s), set_pos (pos s + 96) s).
Proof.
  intros Hlen. unfold remaining in Hlen. rewrite length_drop in Hlen.
  pose proof (read_sample_record_layout_at (pos s) s) as H.
  rewrite set_pos_id in H. apply H. lia.
Qed.

Lemma read_sample_record_layout_witness :
  read_sample_record (samples_start patch_unsigned)
  = (Returned (record_at (samples_start patch_unsigned)),
     set_pos (pos (samples_start patch_unsigned) + 96)
       (samples_start patch_unsigned)).
Proof.
  apply (read_sample_record_layout (samples_start patch_unsigned)).
  vm_compute. lia.
Defined.

Ltac step_bounded :=
  match goal with
  | |- context [(f_seek_cur ?j ≫= _) (set_pos ?p ?s)] =>
      rewrite bind_f_seek_cur
  | |- context [(read_int ?n ≫= _) (set_pos ?p ?s)] =>
      let v := fresh "v" in
      let q := fresh "q" in
      let Hv := fresh "Hv" in
      let E := fresh "E" in
      destruct (bind_read_int_bounded n p s ltac:(lia)) as (v & q & Hv & E);
      rewrite E; clear E
  end.

Lemma read_sample_record_in_range_at p s :
  exists info q,
    read_sample_record (set_pos p s) = (Returned info, set_pos q s)
    /\ in_range info.
Proof.
  unfold read_sample_record. repeat step_bounded.
  eexists _, _. split; [reflexivity |].
  unfold in_range. cbn [fractions data_length loop_start loop_end sample_rate
    low_freq high_freq root_freq stereo_balance tremolo_sweep tremolo_rate
    tremolo_depth vibrato_sweep vibrato_rate vibrato_depth modes scale_freq
    scale_factor].
  change (256 ^ 1) with (2 ^ 8) in *. change (256 ^ 2) with (2 ^ 16) in *.
  change (256 ^ 4) with (2 ^ 32) in *. tauto.
Qed.

Lemma read_sample_record_bounded s :
  exists info s',
    read_sample_record s = (Returned info, s')
    /\ same_but_pos s s' /\ in_range info.
Proof.
  destruct (read_sample_record_in_range_at (pos s) s) as (info & q & E & Hr).
  rewrite set_pos_id in E. exists info, (set_pos q s).
  split; [exact E |]. split; [| exact Hr]. clear. by unfold same_but_pos.
Qed.

(** X2: the record step always returns, whatever is left of the file, and
    every number it delivers lies within the width it was read with; in
    particular [data_length] is never negative, so that [f.read] is never
    asked for a negative number of bytes. *)
Theorem read_sample_record_in_range (s : State) :
  exists info s',
    read_sample_record s = (Returned info, s')
    /\ same_but_pos s s' /\ in_range info.
Proof. apply read_sample_record_bounded. Qed.

Lemma read_sample_record_eof_at p s :
  (length (content s) <= p)%nat ->
  read_sample_record (set_pos p s)
  = (Returned empty_info, set_pos (p + 57) s).
Proof.
  intros Hlen. unfold read_sample_record.
  repeat (rewrite bind_f_seek_cur || rewrite bind_read_int_eof by lia).
  cbn [mret M_ret]. rewrite <- !Nat.add_assoc. reflexivity.
Qed.

(** ** One sample block *)

Lemma read_sample_unfold s info s1 :
  read_sample_record s = (Returned info, s1) ->
  read_sample s = read_sample_data info s1.
Proof. intros E. unfold read_sample, mbind, M_bind. rewrite E. reflexivity. Qed.

(** A sample block that starts at or behind the end of the file decodes
    to an empty 8-bit audio unit. *)
Lemma read_sample_eof s :
  (length (content s) <= pos s)%nat ->
  exists s',
    read_sample s = (Returned tt, s')
    /\ content s' = content s /\ (pos s <= pos s')%nat
    /\ result s' = {| error := error (result s);
                      error_msg := error_msg (result s);
                      samples := samples (result s) ++ [mkAudio [] 1] |}
    /\ stdout s' = stdout s ++ [empty_info].
Proof.
  intros Hlen.
  pose proof (read_sample_record_eof_at (pos s) s Hlen) as Hrec.
  rewrite set_pos_id in Hrec.
  rewrite (read_sample_unfold _ _ _ Hrec). clear Hrec.
  eexists. split.
  - apply read_sample_data_returned. reflexivity.
  - cbn. repeat split. lia.
Qed.

Lemma for_range_eof n : forall s,
  (length (content s) <= pos s)%nat ->
  exists s',
    for_range n read_sample s = (Returned tt, s')
    /\ result s' = {| error := error (result s);
                      error_msg := error_msg (result s);
                      samples := samples (result s)
                                 ++ replicate n (mkAudio [] 1) |}
    /\ stdout s' = stdout s ++ replicate n empty_info.
Proof.
  induction n as [| n IH]; intros s Hlen.
  - exists s. cbn. rewrite !app_nil_r. by destruct (result s).
  - destruct (read_sample_eof s Hlen) as (s1 & E1 & Hc & Hp & Hr & Ho).
    destruct (IH s1) as (s2 & E2 & Hr2 & Ho2); [rewrite Hc; lia |].
    exists s2. rewrite for_range_S, E1. split; [exact E2 |].
    clear E1 E2 IH. rewrite Hr2, Ho2, Hr, Ho. cbn [error error_msg samples replicate].
    by rewrite <- !app_assoc.
Qed.

(** X7: a file that passes the magic check and ends with its header (239
    bytes or fewer) is read without error as [n] empty 8-bit samples, [n]
    being its sample-count byte: a patch that is only the magic string has
    no sample, a full header alone has as many empty samples as it
    declares. *)
Theorem read_header_only (file : list byte) :
  accepted_magic file -> (length file <= 239)%nat ->
  read file
  = Returned {| error := OK; error_msg := "";
                samples := replicate (Z.to_nat (count_byte 198 file))
                             (mkAudio [] 1) |}.
Proof.
  intros Hmagic Hlen. unfold read.
  rewrite read_run_eq, (accepted_magic_guard _ Hmagic).
  destruct (for_range_eof (Z.to_nat (count_byte 198 file))
              (samples_start file)) as (s' & -> & -> & _); [| done].
  cbn [samples_start content pos]. rewrite length_take, length_drop. lia.
Qed.

Lemma read_header_only_witness :
  read (mk_header "GF1PATCH100" 1 1 3)
  = Returned {| error := OK; error_msg := "";
                samples :=
                  replicate
                    (Z.to_nat (count_byte 198 (mk_header "GF1PATCH100" 1 1 3)))
                    (mkAudio [] 1) |}.
Proof.
  apply (read_header_only (mk_header "GF1PATCH100" 1 1 3)).
  - right. vm_compute. reflexivity.
  - vm_compute. lia.
Defined.

(** ** Sizes of the decoded samples *)

Lemma Even_dec_mod2 n : Nat.Even n \/ ~ Nat.Even n.
Proof.
  rewrite Even_mod2. destruct (Nat.eq_dec (n mod 2)%nat 0%nat); [by left | by right].
Qed.


Lemma transcode_sized modes dl data d w :
  0 <= dl -> (length data <= Z.to_nat dl)%nat ->
  transcode modes dl data = Returned (d, w) ->
  (has_flag modes Mode.SIXTEEN_BIT -> length d = Z.to_nat dl)
  /\ (~ has_flag modes Mode.SIXTEEN_BIT -> d = data).
Proof.
  intros Hdl Hle Ht. split.
  - intros H16. destruct (Even_dec_mod2 (length data)) as [Hev | Hodd].
    + destruct (transcode_sixteen_even modes dl data H16 Hev Hle)
        as (out & E & Hlen).
      rewrite E in Ht. injection Ht as <- _.
      rewrite length_app, length_replicate. lia.
    + destruct (transcode_odd modes dl data H16 Hodd) as [msg E]. congruence.
  - intros H8. rewrite transcode_eight_bit in Ht by done. congruence.
Qed.

(** What one sample block appends and prints. *)
Lemma read_sample_appends s s' :
  read_sample s = (Returned tt, s') ->
  exists info a,
    samples (result s') = samples (result s) ++ [a]
    /\ stdout s' = stdout s ++ [info]
    /\ in_range info /\ sized info a.
Proof.
  destruct (read_sample_record_bounded s)
    as (info & s1 & Hrec & (_ & Hres & Hout) & Hrange).
  rewrite (read_sample_unfold _ _ _ Hrec). clear Hrec.
  pose proof Hrange as (_ & Hdl & _).
  pose proof (available_length (data_length info) s1 (proj1 Hdl)) as Hav.
  destruct (transcode (modes info) (data_length info)
              (available (data_length info) s1)) as [[d w] | e] eqn:Ht.
  - rewrite (read_sample_data_returned _ _ _ _ Ht). intros [= <-].
    exists info, (mkAudio d w).
    cbn [after_sample result samples stdout]. rewrite Hres, Hout.
    split; [done |]. split; [done |]. split; [exact Hrange |].
    destruct (transcode_sized _ _ _ _ _ (proj1 Hdl) Hav Ht) as [H1 H2].
    split; cbn [pcm_data]; [exact H1 |].
    intros H8. by rewrite (H2 H8).
  - intros E. apply (f_equal fst) in E.
    rewrite (read_sample_data_raised _ _ _ Ht) in E. discriminate.
Qed.

Lemma for_range_appends n : forall s s',
  for_range n read_sample s = (Returned tt, s') ->
  exists new infos,
    samples (result s') = samples (result s) ++ new
    /\ stdout s' = stdout s ++ infos
    /\ Forall2 (fun info a => in_range info /\ sized info a) infos new.
Proof.
  induction n as [| n IH]; intros s s'.
  - intros [= <-]. exists [], []. rewrite !app_nil_r. by repeat split.
  - rewrite for_range_S.
    destruct (read_sample s) as [[[] | e] s1] eqn:E1; [| discriminate].
    intros E2.
    apply read_sample_appends in E1 as (info & a & Hs1 & Ho1 & Hr & Hz).
    apply IH in E2 as (new & infos & Hs2 & Ho2 & Hall). clear IH.
    exists (a :: new), (info :: infos).
    rewrite Hs2, Ho2, Hs1, Ho1, <- !app_assoc. repeat split; try done.
    by constructor.
Qed.

(** X3: what [read] returns has at most 255 samples, one per printed
    record; a 16-bit sample has exactly [data_length] bytes even when the
    file held fewer, an 8-bit sample has at most [data_length] bytes, and
    every printed number lies within the width of its field. *)
Theorem read_samples_sized (file : list byte) (r : Result) :
  read file = Returned r ->
  (length (samples r) <= 255)%nat
  /\ Forall2 (fun info a => in_range info /\ sized info a)
       (printed file) (samples r).
Proof.
  intros Hr. split.
  - destruct (read_error_cases _ _ Hr) as [(_ & -> & _) | (_ & _ & -> & _)].
    + simpl. lia.
    + pose proof (int_from_bytes_little_bound (take 1 (drop 198 file))) as Hb.
      rewrite length_take in Hb. unfold count_byte.
      assert (256 ^ Z.of_nat (1 `min` length (drop 198 file)) <= 256 ^ 1)
        by (apply Z.pow_le_mono_r; lia).
      lia.
  - revert Hr. unfold read, printed. rewrite read_run_eq.
    destruct (bool_decide _ && bool_decide _).
    + intros [= <-]. constructor.
    + destruct (for_range _ _ _) as [[[] | e] s'] eqn:Hloop; [| discriminate].
      intros [= <-]. cbn [snd].
      apply for_range_appends in Hloop as (new & infos & -> & -> & Hall).
      exact Hall.
Qed.

Lemma read_samples_sized_witness :
  (length (samples (mkResult OK ""
             [mkAudio [Byte.x10; Byte.x20; Byte.x00; Byte.x00] 2])) <= 255)%nat
  /\ Forall2 (fun info a => in_range info /\ sized info a)
       (printed patch_truncated_sixteen)
       (samples (mkResult OK ""
          [mkAudio [Byte.x10; Byte.x20; Byte.x00; Byte.x00] 2])).
Proof.
  apply (read_samples_sized patch_truncated_sixteen).
  vm_compute. reflexivity.
Defined.

(** ** Where an exception can come from *)




(** ** More on the transcoding step *)

(** X5: of the mode flags only SIXTEEN_BIT and UNSIGNED reach the audio
    data: two mode bytes that agree on these two bits are transcoded
    alike. *)
Theorem transcode_two_flags (m1 m2 dl : Z) (data : list byte) :
  Z.land m1 3 = Z.land m2 3 ->
  transcode m1 dl data = transcode m2 dl data.
Proof.
  intros Hm.
  assert (forall m flag, Z.land 3 flag = flag ->
            Z.land m flag = Z.land (Z.land m 3) flag) as Hflag.
  { intros m flag Hf. by rewrite <- Z.land_assoc, Hf. }
  unfold transcode.
  rewrite (Hflag m1 Mode.SIXTEEN_BIT), (Hflag m2 Mode.SIXTEEN_BIT) by done.
  rewrite (Hflag m1 Mode.UNSIGNED), (Hflag m2 Mode.UNSIGNED) by done.
  by rewrite Hm.
Qed.

Lemma transcode_two_flags_witness :
  transcode 3 4 [Byte.x00; Byte.x80; Byte.x01; Byte.x02]
  = transcode 255 4 [Byte.x00; Byte.x80; Byte.x01; Byte.x02].
Proof.
  apply (transcode_two_flags 3 255 4). vm_compute. reflexivity.
Defined.

Lemma pack_h_mod v v' : v mod 65536 = v' mod 65536 -> pack_h v = pack_h v'.
Proof.
  intros Hv. unfold pack_h.
  assert (v mod 256 = v' mod 256 /\ (v / 256) mod 256 = (v' / 256) mod 256)
    as [H0 H1] by (Z.div_mod_to_equations; lia).
  unfold byte_of_Z. by rewrite H0, H1.
Qed.

Lemma unpack_H_pack_h v :
  unpack_H (byte_of_Z v) (byte_of_Z (v / 256)) = v mod 65536.
Proof.
  unfold unpack_H. rewrite !byte_val_of_Z. Z.div_mod_to_equations. lia.
Qed.

Lemma pack_h_unpack_H b0 b1 : pack_h (unpack_H b0 b1) = [b0; b1].
Proof.
  pose proof (byte_val_range b0). pose proof (byte_val_range b1).
  unfold pack_h, unpack_H. f_equal; [| f_equal]; apply byte_of_Z_mod;
    Z.div_mod_to_equations; lia.
Qed.

Lemma items_pack_h_app v rest :
  items unpack_H (pack_h v ++ rest) = v mod 65536 :: items unpack_H rest.
Proof. unfold pack_h. cbn [app items]. by rewrite unpack_H_pack_h. Qed.

(** Recentring twice is the identity on the bytes. *)
Lemma recentre_twice data :
  Nat.Even (length data) ->
  let recentre d :=
    flat_map pack_h (map (fun w => w - 32768) (items unpack_H d)) in
  recentre (recentre data) = data.
Proof.
  intros Hev recentre. subst recentre.
  induction data as [| a | a b l IH] using list_pair_ind.
  - done.
  - destruct Hev as [m Hm]. simpl in Hm. lia.
  - cbn [items map flat_map]. rewrite items_pack_h_app.
    cbn [map flat_map]. rewrite IH.
    + rewrite (pack_h_mod _ (unpack_H a b)); [by rewrite pack_h_unpack_H |].
      Z.div_mod_to_equations. lia.
    + destruct Hev as [m Hm]. simpl in Hm. exists (m - 1)%nat. lia.
Qed.

(** X6: the unsigned-to-signed transcoding of a full even-length payload
    is its own inverse: transcoding its output again, under the same flags,
    gives the original bytes back. *)
Theorem transcode_unsigned_involutive (modes dl : Z) (data out : list byte) :
  has_flag modes Mode.SIXTEEN_BIT -> has_flag modes Mode.UNSIGNED ->
  Nat.Even (length data) -> dl = Z.of_nat (length data) ->
  transcode modes dl data = Returned (out, 2) ->
  transcode modes dl out = Returned (data, 2).
Proof.
  intros H16 Hun Hev -> Ht.
  rewrite transcode_unsigned in Ht by (done || lia).
  rewrite Nat2Z.id, Nat.sub_diag, app_nil_r in Ht. injection Ht as <-.
  assert (length (flat_map pack_h
            (map (fun w => w - 32768) (items unpack_H data))) = length data)
    as Hlen.
  { rewrite (items_length unpack_H data Hev).
    induction (items unpack_H data); simpl in *; lia. }
  rewrite transcode_unsigned; rewrite ?Hlen; try done; [| lia].
  rewrite Nat2Z.id, Nat.sub_diag, app_nil_r.
  by rewrite (recentre_twice data Hev).
Qed.

Lemma transcode_unsigned_involutive_witness :
  transcode 3 4 [Byte.x00; Byte.x00; Byte.xff; Byte.x7f]
  = Returned ([Byte.x00; Byte.x80; Byte.xff; Byte.xff], 2).
Proof.
  apply (transcode_unsigned_involutive 3 4
           [Byte.x00; Byte.x80; Byte.xff; Byte.xff]).
  - unfold has_flag. vm_compute. discriminate.
  - unfold has_flag. vm_compute. discriminate.
  - exists 2%nat. reflexivity.
  - reflexivity.
  - vm_compute. reflexivity.
Defined.

(** ** Well-formed files *)

Lemma field_in_record s (rec more : list byte) offset width :
  remaining s = rec ++ more -> (offset + width <= length rec)%nat ->
  field s offset width = int_from_bytes_little (take width (drop offset rec)).
Proof.
  intros Hrem Hlen. unfold field.
  rewrite <- drop_drop. fold (remaining s). rewrite Hrem.
  rewrite drop_app_le by lia. rewrite take_app_le; [done |].
  rewrite length_drop. lia.
Qed.

Lemma transcode_block b :
  well_formed_block b ->
  transcode (block_modes b) (Z.of_nat (length (snd b))) (snd b)
  = Returned (pcm_data (block_audio b), sample_width_in_bytes (block_audio b)).
Proof.
  intros (_ & _ & Hev). unfold block_audio.
  destruct (truthy (Z.land (block_modes b) Mode.SIXTEEN_BIT)) eqn:H16.
  - apply truthy_flag in H16. specialize (Hev H16).
    destruct (truthy (Z.land (block_modes b) Mode.UNSIGNED)) eqn:Hun.
    + apply truthy_flag in Hun.
      rewrite transcode_unsigned by (done || lia).
      by rewrite Nat2Z.id, Nat.sub_diag, app_nil_r.
    + apply not_truthy_flag in Hun.
      rewrite transcode_signed by (done || lia).
      by rewrite Nat2Z.id, Nat.sub_diag, app_nil_r.
  - apply not_truthy_flag in H16. by apply transcode_eight_bit.
Qed.

(** A well-formed block at the cursor is decoded to its audio unit, and the
    cursor ends behind its payload. *)
Lemma read_sample_block s b more :
  remaining s = block_bytes b ++ more -> well_formed_block b ->
  read_sample s
  = (Returned tt,
     after_sample (set_pos (pos s + 96) s) (length (snd b))
       (block_audio b) (record_at s)).
Proof.
  intros Hrem Hwf. pose proof Hwf as (Hlen & Hdl & _).
  unfold block_bytes in Hrem. rewrite <- app_assoc in Hrem.
  rewrite (read_sample_unfold s (record_at s) (set_pos (pos s + 96) s)).
  2: { pose proof (read_sample_record_layout_at (pos s) s) as Hrec.
       rewrite set_pos_id in Hrec. apply Hrec.
       pose proof (f_equal length Hrem) as Hl. unfold remaining in Hl.
       rewrite length_drop, length_app in Hl. lia. }
  assert (data_length (record_at s) = Z.of_nat (length (snd b))) as Hdata.
  { cbn [record_at data_length].
    rewrite (field_in_record s _ _ 8 4 Hrem) by lia. exact Hdl. }
  assert (modes (record_at s) = block_modes b) as Hmodes.
  { cbn [record_at modes].
    by rewrite (field_in_record s _ _ 55 1 Hrem) by lia. }
  assert (available (data_length (record_at s)) (set_pos (pos s + 96) s)
          = snd b) as Hav.
  { rewrite Hdata. unfold available, remaining.
    destruct (Z.ltb_spec (Z.of_nat (length (snd b))) 0); [lia |].
    cbn [pos content set_pos]. rewrite <- drop_drop. fold (remaining s).
    rewrite Hrem, <- Hlen, drop_app_length, Nat2Z.id.
    by rewrite take_app_length. }
  pose proof (transcode_block b Hwf) as Ht.
  rewrite <- Hmodes, <- Hdata, <- Hav in Ht at 1.
  rewrite (read_sample_data_returned _ _ _ _ Ht), Hav.
  by destruct (block_audio b).
Qed.

Lemma for_range_blocks blocks : forall s more,
  remaining s = concat (block_bytes <$> blocks) ++ more ->
  Forall well_formed_block blocks ->
  exists s',
    for_range (length blocks) read_sample s = (Returned tt, s')
    /\ samples (result s') = samples (result s) ++ (block_audio <$> blocks)
    /\ remaining s' = more.
Proof.
  induction blocks as [| b blocks IH]; intros s more Hrem Hwf.
  - exists s. cbn. by rewrite app_nil_r.
  - apply Forall_cons in Hwf as [Hb Hwf].
    cbn [fmap list_fmap concat] in Hrem. rewrite <- app_assoc in Hrem.
    pose proof (read_sample_block s b _ Hrem Hb) as E1.
    destruct Hb as (Hlen & _).
    destruct (IH (after_sample (set_pos (pos s + 96) s) (length (snd b))
                    (block_audio b) (record_at s)) more)
      as (s' & E2 & Hs & Hmore); [| done |].
    { unfold remaining in *. cbn [after_sample set_pos pos content].
      rewrite <- Nat.add_assoc, <- drop_drop, Hrem.
      replace (96 + length (snd b))%nat with (length (block_bytes b))
        by (unfold block_bytes; rewrite length_app; lia).
      by rewrite drop_app_length. }
    exists s'. cbn [length]. rewrite for_range_S, E1.
    split; [exact E2 |]. clear E1 E2 IH. split; [| exact Hmore].
    rewrite Hs. cbn [after_sample set_pos result samples fmap list_fmap].
    by rewrite <- app_assoc.
Qed.

(** X8: a file that consists of a 239-byte header with an accepted magic
    string, as many well-formed sample blocks as the header's sample-count
    byte says, and any trailing bytes, is read without error; the samples
    are, in file order, the audio units of the blocks: the payload itself
    for an 8-bit and for a signed 16-bit sample, the recentred payload for an
    unsigned 16-bit sample.  The trailing bytes are ignored. *)
Theorem read_well_formed (hdr : list byte)
    (blocks : list (list byte * list byte)) (trailer : list byte) :
  length hdr = 239%nat -> accepted_magic hdr ->
  count_byte 198 hdr = Z.of_nat (length blocks) ->
  Forall well_formed_block blocks ->
  read (hdr ++ concat (block_bytes <$> blocks) ++ trailer)
  = Returned {| error := OK; error_msg := "";
                samples := block_audio <$> blocks |}.
Proof.
  intros Hlen Hmagic Hcount Hwf.
  set (file := hdr ++ concat (block_bytes <$> blocks) ++ trailer).
  assert (take 11 file = take 11 hdr) as Htake
    by (subst file; apply take_app_le; lia).
  assert (take 1 (drop 198 file) = take 1 (drop 198 hdr)) as Hbyte.
  { subst file. rewrite drop_app_le by lia.
    apply take_app_le. rewrite length_drop. lia. }
  assert (count_byte 198 file = Z.of_nat (length blocks)) as Hn
    by (unfold count_byte; by rewrite Hbyte).
  assert (accepted_magic file) as Hm
    by (unfold accepted_magic; by rewrite Htake).
  destruct (for_range_blocks blocks (samples_start file) trailer)
    as (s' & Hloop & Hs & _); [| done |].
  { unfold remaining, samples_start. cbn [pos content].
    rewrite Hbyte, length_take, length_drop, Hlen.
    change (198 + 1 `min` (239 - 198) + 40)%nat with 239%nat.
    subst file. rewrite <- Hlen. apply drop_app_length. }
  unfold read. rewrite read_run_eq, (accepted_magic_guard _ Hm), Hn.
  rewrite Nat2Z.id, Hloop. cbn [fst]. f_equal.
  apply for_range_decoded in Hloop as (_ & He & Hmsg & _).
  clear -Hs He Hmsg. cbn in *. destruct (result s'). cbn in *. congruence.
Qed.

Lemma read_well_formed_witness :
  read (mk_header "GF1PATCH110" 1 1 2
        ++ concat (block_bytes <$>
             [(mk_record 4 3, [Byte.x00; Byte.x80; Byte.xff; Byte.xff]);
              (mk_record 3 0, [Byte.x01; Byte.x02; Byte.x03])])
        ++ [Byte.x2a])
  = Returned {| error := OK; error_msg := "";
                samples :=
                  block_audio <$>
                    [(mk_record 4 3, [Byte.x00; Byte.x80; Byte.xff; Byte.xff]);
                     (mk_record 3 0, [Byte.x01; Byte.x02; Byte.x03])] |}.
Proof.
  apply (read_well_formed (mk_header "GF1PATCH110" 1 1 2)
           [(mk_record 4 3, [Byte.x00; Byte.x80; Byte.xff; Byte.xff]);
            (mk_record 3 0, [Byte.x01; Byte.x02; Byte.x03])] [Byte.x2a]).
  - reflexivity.
  - left. vm_compute. reflexivity.
  - vm_compute. reflexivity.
  - repeat constructor; try (vm_compute; reflexivity).
    + intros _. exists 2%nat. reflexivity.
    + unfold has_flag. vm_compute. intros H. by destruct H.
Defined.

(** ** The command line *)

Lemma str_of_int_inj z z' : str_of_int z = str_of_int z' -> z = z'.
Proof.
  assert (forall z, NilZero.int_of_string (str_of_int z) = Some (Z.to_int z))
    as Hparse.
  { intros y. apply NilZero.isi; destruct y; simpl; try discriminate;
      intros [= H]; by apply DecimalPos.Unsigned.to_uint_nonnil in H. }
  intros H. apply (f_equal NilZero.int_of_string) in H.
  rewrite !Hparse in H. injection H as H. by apply DecimalZ.to_int_inj.
Qed.

(** Different samples go to different files. *)
Lemma out_path_inj i j : out_path i = out_path j -> i = j.
Proof.
  unfold out_path. cbn [String.append]. intros [= H].
  apply str_of_int_inj in H. lia.
Qed.

Lemma write_samples_seq samples n : forall k p,
  (k + n <= length samples)%nat ->
  exists p',
    write_samples samples (seq k n) p = (exit_return, p')
    /\ (forall i a, (k <= i < k + n)%nat -> samples !! i = Some a ->
          files p' !! out_path i = Some (pcm_data a))
    /\ (forall path, (forall i, (k <= i < k + n)%nat -> path ≠ out_path i) ->
          files p' !! path = files p !! path).
Proof.
  induction n as [| n IH]; intros k p Hlen.
  - exists p. split; [done |]. split; [intros; lia | done].
  - cbn [seq write_samples].
    destruct (lookup_lt_is_Some_2 samples k) as [a Ha]; [lia |]. rewrite Ha.
    match goal with
    | |- context [write_samples samples (seq (S k) n) ?q] =>
        destruct (IH (S k) q) as (p' & E & Hnew & Hold); [lia |]
    end.
    exists p'. split; [exact E |]. cbn [files] in Hold. split.
    + intros i b Hi Hb. destruct (decide (i = k)) as [-> | Hne].
      * rewrite Hold.
        -- rewrite lookup_insert_eq. congruence.
        -- intros j Hj Heq%out_path_inj. lia.
      * apply Hnew; [lia | done].
    + intros path Hpath. rewrite Hold.
      * rewrite !lookup_insert_ne; [done | |];
          intros Heq; by apply (Hpath k); [lia |].
      * intros j Hj. apply Hpath. lia.
Qed.



(** X10: for a file that fails the magic check, [main] prints
    'Error: Invalid Gravis patch file.', ends with status 2 (the value of
    BAD_HEADER) and leaves every file as it was. *)
Theorem main_bad_header help_text parse_args (argv : list string)
    (p : Process) (filename : string) (file : list byte) :
  (1 < length argv)%nat -> parse_args argv = inl filename ->
  files p !! filename = Some file -> ~ accepted_magic file ->
  main help_text parse_args argv p
  = (exit_status 2,
     {| files := files p;
        lines := lines p
                 ++ [text_line "Error: Invalid Gravis patch file."] |}).
Proof.
  intros Hargv Hparse Hfile Hmagic. unfold main.
  rewrite bool_decide_false by lia. rewrite Hparse, Hfile, read_run_eq.
  rewrite !bool_decide_true; [| intros E; apply Hmagic; by right
                              | intros E; apply Hmagic; by left].
  cbn. by rewrite app_nil_r.
Qed.

Lemma main_bad_header_witness :
  main "usage" one_argument ["pat2raw"; "in.pat"]%string process_bad_magic
  = (exit_status 2,
     {| files := files process_bad_magic;
        lines := lines process_bad_magic
                 ++ [text_line "Error: Invalid Gravis patch file."] |}).
Proof.
  apply (main_bad_header "usage" one_argument ["pat2raw"; "in.pat"]%string
           process_bad_magic "in.pat"%string (bytes_lit "GF1PATCH111")).
  - simpl. lia.
  - reflexivity.
  - vm_compute. reflexivity.
  - unfold accepted_magic. vm_compute. intros [H | H]; discriminate H.
Defined.



(** X12: the only status that [main] itself passes to [sys.exit] is 2:
    when the arguments were parsed and [main] ends with a status, the file
    failed the magic check, the status is 2 and the last line printed is
    the error message. *)
Theorem main_exit_status help_text parse_args (argv : list string)
    (p p' : Process) (filename : string) (code : Z) :
  parse_args argv = inl filename ->
  main help_text parse_args argv p = (exit_status code, p') ->
  code = 2
  /\ (exists file, files p !! filename = Some file /\ ~ accepted_magic file)
  /\ last (lines p') = Some (text_line "Error: Invalid Gravis patch file.").
Proof.
  intros Hparse. unfold main. destruct (bool_decide _); [discriminate |].
  rewrite Hparse.
  destruct (files p !! filename) as [file |] eqn:Hfile; [| discriminate].
  rewrite read_run_eq.
  destruct (bool_decide _ && bool_decide _) eqn:Hguard.
  - cbn. intros [= <- <-]. split; [done |]. split.
    + exists file. split; [done |].
      intros Hmagic%accepted_magic_guard. congruence.
    + cbn [lines]. by rewrite app_nil_r, last_snoc.
  - destruct (for_range _ _ _) as [[[] | e'] s'] eqn:Hloop; [| discriminate].
    apply for_range_decoded in Hloop as (_ & Herr & _). cbn in Herr.
    rewrite bool_decide_false by (rewrite Herr; intros H; by apply H).
    match goal with
    | |- context [write_samples ?l _ ?q] =>
        destruct (write_samples_seq l (length l) 0 q)
          as (p2 & -> & _); [lia |]
    end.
    discriminate.
Qed.

Lemma main_exit_status_witness :
  2 = 2
  /\ (exists file,
        files process_bad_magic !! "in.pat"%string = Some file
        /\ ~ accepted_magic file)
  /\ last (lines (mkProcess (files process_bad_magic)
                    [text_line "Error: Invalid Gravis patch file."]))
     = Some (text_line "Error: Invalid Gravis patch file.").
Proof.
  apply (main_exit_status "usage" one_argument ["pat2raw"; "in.pat"]%string
           process_bad_magic _ "in.pat"%string 2).
  - reflexivity.
  - vm_compute. reflexivity.
Defined.

(** ** The loop reads forward only *)

Lemma forward_only_ret {A} (a : A) : forward_only (mret a).
Proof. intros s t Hst. by split. Qed.

Lemma forward_only_lift {A} (o : Outcome A) : forward_only (lift o).
Proof. intros s t Hst. by split. Qed.

Lemma forward_only_bind {A B} (c : M A) (k : A -> M B) :
  forward_only c -> (forall a, forward_only (k a)) -> forward_only (c ≫= k).
Proof.
  intros Hc Hk s t Hst. destruct (Hc s t Hst) as [Hfst Hview].
  unfold mbind, M_bind.
  destruct (c s) as [[a | e] s1], (c t) as [[a' | e'] t1];
    cbn [fst snd] in *; try discriminate.
  - injection Hfst as <-. by apply Hk.
  - injection Hfst as <-. by split.
Qed.

Lemma forward_only_f_seek_cur j : forward_only (f_seek_cur j).
Proof.
  intros s t (Hrem & Hres & Hout). split; [done |].
  unfold same_view, remaining in *. cbn.
  by rewrite <- !drop_drop, Hrem.
Qed.

Lemma forward_only_f_read n : forward_only (f_read n).
Proof.
  intros s t (Hrem & Hres & Hout).
  assert (available n s = available n t) as Hav
    by (unfold available; by rewrite Hrem).
  split; [cbn; by rewrite Hav |].
  unfold same_view, remaining in *. cbn.
  by rewrite <- !drop_drop, Hrem, Hav.
Qed.

Lemma forward_only_append_sample a : forward_only (append_sample a).
Proof.
  intros s t (Hrem & Hres & Hout). split; [done |].
  unfold same_view, remaining in *. cbn. by rewrite Hres.
Qed.

Lemma forward_only_print info : forward_only (print info).
Proof.
  intros s t (Hrem & Hres & Hout). split; [done |].
  unfold same_view, remaining in *. cbn. by rewrite Hout.
Qed.

Create HintDb forward.
#[local] Hint Resolve forward_only_ret forward_only_lift
  forward_only_f_seek_cur forward_only_f_read forward_only_append_sample
  forward_only_print : forward.

Ltac forward_only_steps :=
  repeat (apply forward_only_bind; [auto with forward | intros ?]);
  auto with forward.

Lemma forward_only_read_int n : forward_only (read_int n).
Proof. unfold read_int. forward_only_steps. Qed.

#[local] Hint Resolve forward_only_read_int : forward.

Lemma forward_only_read_sample : forward_only read_sample.
Proof.
  unfold read_sample. apply forward_only_bind.
  - unfold read_sample_record. forward_only_steps.
  - intros info. unfold read_sample_data.
    apply forward_only_bind; [auto with forward | intros data].
    apply forward_only_bind; [auto with forward | intros [d w]].
    forward_only_steps.
Qed.

Lemma forward_only_for_range n body :
  forward_only body -> forward_only (for_range n body).
Proof.
  intros Hbody. induction n as [| n IH]; cbn [for_range].
  - apply forward_only_ret.
  - apply forward_only_bind; [done | by intros _].
Qed.

Lemma take_1_drop {A} (l : list A) n :
  take 1 (drop n l) = match l !! n with Some x => [x] | None => [] end.
Proof.
  destruct (l !! n) as [x |] eqn:Hn.
  - by rewrite (drop_S _ _ _ Hn).
  - apply lookup_ge_None in Hn. by rewrite drop_ge.
Qed.

(** X13: the result of [read] depends on the first 11 bytes, on byte 198
    and on the bytes from offset 239 on, and on nothing else: the rest of
    the header, the instrument count at offset 82 and the layer count at
    offset 151 included, never changes what is returned or raised. *)
Theorem read_ignores_header_rest (f g : list byte) :
  take 11 f = take 11 g -> f !! 198%nat = g !! 198%nat ->
  drop 239 f = drop 239 g ->
  read f = read g.
Proof.
  intros Hmagic Hcount Hrest. unfold read. rewrite !read_run_eq, Hmagic.
  destruct (bool_decide _ && bool_decide _); [done |].
  assert (take 1 (drop 198 f) = take 1 (drop 198 g)) as Hbyte
    by (by rewrite !take_1_drop, Hcount).
  assert (same_view (samples_start f) (samples_start g)) as Hview.
  { unfold same_view, remaining, samples_start. cbn [pos content result stdout].
    split; [| done]. rewrite Hbyte, take_1_drop.
    destruct (g !! 198%nat) as [x |] eqn:Hg; [exact Hrest |].
    rewrite !drop_ge; [done | |].
    - apply lookup_ge_None in Hg. simpl. lia.
    - apply lookup_ge_None in Hcount. simpl. lia. }
  unfold count_byte. rewrite Hbyte.
  destruct (forward_only_for_range
              (Z.to_nat (int_from_bytes_little (take 1 (drop 198 g))))
              read_sample forward_only_read_sample _ _ Hview)
    as [Hfst (_ & Hres & _)].
  destruct (for_range _ _ (samples_start f)) as [[[] | e] s1],
           (for_range _ _ (samples_start g)) as [[[] | e'] t1];
    cbn [fst snd] in *; congruence.
Qed.

Lemma read_ignores_header_rest_witness :
  read (mk_header "GF1PATCH110" 0 7 1 ++ drop 239 patch_unsigned)
  = read patch_unsigned.
Proof.
  apply (read_ignores_header_rest
           (mk_header "GF1PATCH110" 0 7 1 ++ drop 239 patch_unsigned)
           patch_unsigned); vm_compute; reflexivity.
Defined.
